(** * Park walkthrough: collision, movement and progression core

    A shallow embedding of the gameplay logic of the park demo:

    - [app/main.js] (first-person build): the collidable registry,
      [checkCollision], [getGroundHeight], [getWaterDepth],
      [updateMovement], the [Space] key handler, [collectItem],
      [checkCollectibles], [checkPondVisits], [checkWinCondition];
    - [app/src/physics/collision.js]: the same two queries, with the player
      radius and the world boundary read from a constants module;
    - [app/src/Entities/Player.js] (third-person build): [update],
      [handleMovement], [checkWater], [resetToGround].

    JavaScript numbers are modelled as exact rationals [Q]: rounding,
    infinities and NaN of IEEE doubles are outside the model.  A test
    [Math.sqrt(a) < b] is modelled by its exact real-number meaning
    [0 < b /\ a < b * b]; where the value of a square root, sine or cosine
    is itself needed, the function is a parameter of the model. *)

From Stdlib Require Import Reals Qreals Lra.
From Stdlib Require Import QArith Qminmax Qabs Qround Lqa Lia.
From stdpp Require Import base gmap list.

Open Scope Q_scope.

(** ** Numbers *)

(** [a < b] on JavaScript numbers. *)
Definition Qltb (a b : Q) : bool := negb (Qle_bool b a).

(** [Math.sqrt(dx*dx + dz*dz) < bound], the planar distance test used by
    [Vector2.distanceTo] and by the hand-written distances. *)
Definition dist_lt (dx dz bound : Q) : bool :=
  Qltb 0 bound && Qltb (dx * dx + dz * dz) (bound * bound).

(** [THREE.Vector3]. *)
Record Vector3 : Type := mkVector3 { vec_x : Q; vec_y : Q; vec_z : Q }.

(** ** Collidable registry and the two queries *)

(** The [type] tags pushed by the world builders of [main.js]. *)
Inductive CollidableType : Type :=
  | terrace | outcrop | stairs | ramp | tree | bench
  | boulder | gazebo | sign | building.

(** An entry of [collidableObjects].  Only [createTerrace] stores a
    [height]; every other builder leaves the field [undefined] ([None]). *)
Record Collidable : Type := mkCollidable {
  position : Vector3;
  radius : Q;
  type : CollidableType;
  height : option Q
}.

Definition registerCollidable (object : Collidable)
    (collidableObjects : list Collidable) : list Collidable :=
  collidableObjects ++ [object].

Definition clearCollidables (collidableObjects : list Collidable)
    : list Collidable := [].

Definition getCollidables (collidableObjects : list Collidable)
    : list Collidable := collidableObjects.

(** A world build: the registrations performed in order on a registry. *)
Definition registerAll (objects collidableObjects : list Collidable)
    : list Collidable :=
  foldl (fun registry object => registerCollidable object registry)
        collidableObjects objects.

Section collision.
(** [PLAYER.RADIUS] and [WORLD.BOUNDARY] of [config/constants.js];
    [main.js] hard-codes them. *)
Variable PLAYER_RADIUS : Q.
Variable WORLD_BOUNDARY : Q.

(** [checkCollision(newX, newZ, playerY)]: the [for ... of] loop, then
    the boundary test. *)
Fixpoint checkCollision (collidableObjects : list Collidable)
    (newX newZ playerY : Q) : bool :=
  match collidableObjects with
  | [] =>
      Qltb WORLD_BOUNDARY (Qabs newX) || Qltb WORLD_BOUNDARY (Qabs newZ)
  | obj :: rest =>
      if dist_lt (newX - vec_x (position obj)) (newZ - vec_z (position obj))
                 (PLAYER_RADIUS + radius obj)
      then
        match height obj with
        | Some objHeight =>
            if Qltb (objHeight + 1.5) playerY
            then checkCollision rest newX newZ playerY
            else true
        | None => true
        end
      else checkCollision rest newX newZ playerY
  end.
End collision.

(** The loop of [getGroundHeight], with [maxGroundHeight] as accumulator.
    [!obj.height] skips an [undefined] height and a height of zero. *)
Fixpoint groundHeightLoop (collidableObjects : list Collidable)
    (x z currentY maxGroundHeight : Q) : Q :=
  match collidableObjects with
  | [] => maxGroundHeight
  | obj :: rest =>
      match height obj with
      | None => groundHeightLoop rest x z currentY maxGroundHeight
      | Some platformTop =>
          if Qeq_bool platformTop 0
          then groundHeightLoop rest x z currentY maxGroundHeight
          else if dist_lt (x - vec_x (position obj)) (z - vec_z (position obj))
                          (radius obj)
          then
            if Qle_bool (platformTop - 0.5) currentY
               && Qle_bool currentY (platformTop + 3)
            then groundHeightLoop rest x z currentY
                   (Qmax maxGroundHeight platformTop)
            else groundHeightLoop rest x z currentY maxGroundHeight
          else groundHeightLoop rest x z currentY maxGroundHeight
      end
  end.

Definition getGroundHeight (collidableObjects : list Collidable)
    (x z currentY : Q) : Q :=
  groundHeightLoop collidableObjects x z currentY 0.

(** One obstacle's verdict in the loop of [checkCollision]: inside the
    footprint and not cleared from above. *)
Definition blocksAt (playerRadius newX newZ playerY : Q) (obj : Collidable)
    : bool :=
  dist_lt (newX - vec_x (position obj)) (newZ - vec_z (position obj))
          (playerRadius + radius obj)
  && match height obj with
     | Some objHeight => negb (Qltb (objHeight + 1.5) playerY)
     | None => true
     end.

(** One iteration of the loop of [getGroundHeight]. *)
Definition landingStep (x z currentY : Q) (obj : Collidable)
    (maxGroundHeight : Q) : Q :=
  match height obj with
  | None => maxGroundHeight
  | Some platformTop =>
      if negb (Qeq_bool platformTop 0)
         && dist_lt (x - vec_x (position obj)) (z - vec_z (position obj))
                    (radius obj)
         && Qle_bool (platformTop - 0.5) currentY
         && Qle_bool currentY (platformTop + 3)
      then Qmax maxGroundHeight platformTop
      else maxGroundHeight
  end.

(** ** Collectibles, objectives and the win condition ([main.js]) *)

(** [userData.type] of a collectible; the treasure chest sets none. *)
Inductive CollectibleType : Type :=
  | gem | coin | building_treasure | no_type.

(** [userData] of a collectible.  [createCollectible] and the building
    gems store [type], [value], [collected] and [baseHeight];
    [createTreasure] stores [isTreasure] and [collected] only, its [value]
    is never read. *)
Record UserData : Type := mkUserData {
  isTreasure : bool;
  userType : CollectibleType;
  value : Z;
  collected : bool;
  baseHeight : option Q
}.

Record Collectible : Type := mkCollectible {
  worldPosition : Vector3;
  userData : UserData
}.

(** [gameState], without the clock fields.  [objectives] keeps the
    [completed] flag of the three objectives, in order; [winScreens]
    counts the calls of [showGameWinScreen]. *)
Record GameState : Type := mkGameState {
  score : Z;
  gemsCollected : Z;
  totalGems : Z;
  gameStarted : bool;
  gameWon : bool;
  objectives : list bool;
  pondsVisited : gset nat;
  treasureFound : bool;
  winScreens : nat
}.

(** An entry of [ponds]; [group.position] is [(x, 0, z)]. *)
Record Pond : Type := mkPond {
  pond_x : Q;
  pond_z : Q;
  pond_size : Q;
  pond_depth : Q
}.

Definition addScore (points : Z) (gs : GameState) : GameState :=
  mkGameState (score gs + points)%Z (gemsCollected gs) (totalGems gs)
    (gameStarted gs) (gameWon gs) (objectives gs) (pondsVisited gs)
    (treasureFound gs) (winScreens gs).

Definition incrementGems (gs : GameState) : GameState :=
  mkGameState (score gs) (gemsCollected gs + 1)%Z (totalGems gs)
    (gameStarted gs) (gameWon gs) (objectives gs) (pondsVisited gs)
    (treasureFound gs) (winScreens gs).

Definition setTreasureFound (gs : GameState) : GameState :=
  mkGameState (score gs) (gemsCollected gs) (totalGems gs)
    (gameStarted gs) (gameWon gs) (objectives gs) (pondsVisited gs)
    true (winScreens gs).

(** [gameState.objectives[i].completed = true]. *)
Definition completeObjective (i : nat) (gs : GameState) : GameState :=
  mkGameState (score gs) (gemsCollected gs) (totalGems gs)
    (gameStarted gs) (gameWon gs) (<[i := true]> (objectives gs))
    (pondsVisited gs) (treasureFound gs) (winScreens gs).

Definition addPondVisited (index : nat) (gs : GameState) : GameState :=
  mkGameState (score gs) (gemsCollected gs) (totalGems gs)
    (gameStarted gs) (gameWon gs) (objectives gs)
    ({[ index ]} ∪ pondsVisited gs) (treasureFound gs) (winScreens gs).

Definition startGame (gs : GameState) : GameState :=
  mkGameState (score gs) (gemsCollected gs) (totalGems gs)
    true (gameWon gs) (objectives gs) (pondsVisited gs)
    (treasureFound gs) (winScreens gs).

(** [gameState.objectives.every(obj => obj.completed)]. *)
Definition allObjectivesCompleted (gs : GameState) : bool :=
  forallb (fun completed => completed) (objectives gs).

Definition checkWinCondition (gs : GameState) : GameState :=
  if negb (gameWon gs) && allObjectivesCompleted gs
  then mkGameState (score gs) (gemsCollected gs) (totalGems gs)
         (gameStarted gs) true (objectives gs) (pondsVisited gs)
         (treasureFound gs) (S (winScreens gs))
  else gs.

Definition markCollected (ud : UserData) : UserData :=
  mkUserData (isTreasure ud) (userType ud) (value ud) true (baseHeight ud).

(** [collectItem(collectible)].  Notifications, sounds, the removal
    animation and [updateGameUI] touch the page only and are left out. *)
Definition collectItem (collectible : Collectible) (gs : GameState)
    : Collectible * GameState :=
  let collectible' :=
    mkCollectible (worldPosition collectible)
                  (markCollected (userData collectible)) in
  let gs' :=
    if isTreasure (userData collectible) then
      completeObjective 1 (addScore 500 (setTreasureFound gs))
    else
      match userType (userData collectible) with
      | gem =>
          let gs1 := addScore (value (userData collectible))
                              (incrementGems gs) in
          if (totalGems gs1 <=? gemsCollected gs1)%Z
          then completeObjective 0 gs1
          else gs1
      | _ => addScore (value (userData collectible)) gs
      end in
  (collectible', checkWinCondition gs').

(** The callback of [collectibles.forEach] in [checkCollectibles]. *)
Definition checkCollectible (playerPos : Vector3) (collectible : Collectible)
    (gs : GameState) : Collectible * GameState :=
  if collected (userData collectible) then (collectible, gs)
  else
    let collectiblePos := worldPosition collectible in
    if dist_lt (vec_x playerPos - vec_x collectiblePos)
               (vec_z playerPos - vec_z collectiblePos) 2.0
       && Qltb (Qabs (vec_y playerPos - vec_y collectiblePos)) 2.5
    then collectItem collectible gs
    else (collectible, gs).

Fixpoint checkCollectibles (playerPos : Vector3)
    (collectibles : list Collectible) (gs : GameState)
    : list Collectible * GameState :=
  match collectibles with
  | [] => ([], gs)
  | collectible :: rest =>
      let '(collectible', gs1) := checkCollectible playerPos collectible gs in
      let '(rest', gs2) := checkCollectibles playerPos rest gs1 in
      (collectible' :: rest', gs2)
  end.

(** [ponds.forEach((pond, index) => ...)] of [checkPondVisits], from
    position [index] on.  The player position is taken at height 0 and the
    pond group sits at height 0, so the distance is planar. *)
Fixpoint checkPondVisitsFrom (index : nat) (playerPos : Vector3)
    (ponds : list Pond) (gs : GameState) : GameState :=
  match ponds with
  | [] => gs
  | pond :: rest =>
      let gs' :=
        if dist_lt (vec_x playerPos - pond_x pond)
                   (vec_z playerPos - pond_z pond) 20
           && negb (bool_decide (index ∈ pondsVisited gs))
        then
          let gs1 := addPondVisited index gs in
          if (3 <=? size (pondsVisited gs1))%nat
          then completeObjective 2 gs1
          else gs1
        else gs in
      checkPondVisitsFrom (S index) playerPos rest gs'
  end.

Definition checkPondVisits : Vector3 -> list Pond -> GameState -> GameState :=
  checkPondVisitsFrom 0.

Section tracker.
(** [Math.sin], needed only for the bobbing of the collectibles. *)
Variable Math_sin : Q -> Q.

(** [animateCollectibles]: an uncollected collectible bobs around
    [userData.baseHeight || 1.5]; rotation and scale are not modelled. *)
Definition animateCollectible (time : Q) (collectible : Collectible)
    : Collectible :=
  if collected (userData collectible) then collectible
  else
    let p := worldPosition collectible in
    let bobOffset := Math_sin (time * 2 + vec_x p) * 0.2 in
    let base :=
      match baseHeight (userData collectible) with
      | Some b => if Qeq_bool b 0 then 1.5 else b
      | None => 1.5
      end in
    mkCollectible (mkVector3 (vec_x p) (base + bobOffset) (vec_z p))
                  (userData collectible).

Definition animateCollectibles (time : Q) (collectibles : list Collectible)
    : list Collectible :=
  map (animateCollectible time) collectibles.

(** The game part of one [animate()] frame: the collectibles bob, then,
    while the game is started and not won, the collectibles and the ponds
    are checked against the camera position. *)
Definition gameFrame (ponds : list Pond) (time : Q) (camera : Vector3)
    (st : list Collectible * GameState) : list Collectible * GameState :=
  let collectibles := animateCollectibles time (fst st) in
  let gs := snd st in
  if gameStarted gs && negb (gameWon gs) then
    let '(collectibles', gs1) := checkCollectibles camera collectibles gs in
    (collectibles', checkPondVisits camera ponds gs1)
  else (collectibles, gs).

(** A session: the frames played in order, each with its clock time and
    camera position. *)
Definition gameFrames (ponds : list Pond) (frames : list (Q * Vector3))
    (st : list Collectible * GameState) : list Collectible * GameState :=
  foldl (fun st frame => gameFrame ponds (fst frame) (snd frame) st)
        st frames.
End tracker.

(** The three ponds of [createPonds]. *)
Definition parkPonds : list Pond :=
  [ mkPond (-60) 40 15 3.5; mkPond 50 (-50) 20 6.0; mkPond (-30) (-60) 12 2.0 ].

(** ** First-person movement ([main.js]) *)

Module Main.

Definition WALK_SPEED : Q := 50.0.
Definition RUN_SPEED : Q := 100.0.
Definition JUMP_VELOCITY : Q := 35.0.
Definition PLAYER_RADIUS : Q := 1.0.
Definition PLAYER_HEIGHT : Q := 2.0.
Definition WORLD_BOUNDARY : Q := 240.

Definition checkCollision : list Collidable -> Q -> Q -> Q -> bool :=
  checkCollision PLAYER_RADIUS WORLD_BOUNDARY.

(** What [getWaterDepth] returns; its callers read [inWater] and [depth]
    only. *)
Record WaterData : Type := mkWaterData { inWater : bool; depth : Q }.

(** The camera as the movement code sees it: its position, its [up]
    vector and the result of [getWorldDirection]. *)
Record Camera : Type := mkCamera {
  position : Vector3;
  up : Vector3;
  worldDirection : Vector3
}.

(** The key flags written by [onKeyDown] and [onKeyUp]. *)
Record Keys : Type := mkKeys {
  moveForward : bool;
  moveBackward : bool;
  moveLeft : bool;
  moveRight : bool;
  isRunning : bool
}.

(** The module-level variables read and written by [updateMovement]. *)
Record State : Type := mkState {
  camera : Camera;
  velocity : Vector3;
  keys : Keys;
  canJump : bool;
  currentGroundHeight : Q
}.

Definition Number (b : bool) : Q := if b then 1 else 0.

Definition setPositionY (camera : Camera) (y : Q) : Camera :=
  mkCamera (mkVector3 (vec_x (position camera)) y (vec_z (position camera)))
           (up camera) (worldDirection camera).

(** The tiers of the water policy in [updateMovement]: the pair
    [(waterResistance, sinkRate)] chosen from the local depth and from
    [isRunning]. *)
Definition waterPolicy (depth : Q) (isRunning : bool) : Q * Q :=
  if Qltb depth 1.0 then (0.9, 0.2)
  else if Qltb depth 3.0 then (0.6, 0.5)
  else if isRunning then (0.4, 0.8)
  else (0.2, 1.2).

(** The [Space] case of [onKeyDown]. *)
Definition onKeyDownSpace (st : State) : State :=
  mkState (camera st)
    (if canJump st
     then mkVector3 (vec_x (velocity st)) JUMP_VELOCITY (vec_z (velocity st))
     else velocity st)
    (keys st) false (currentGroundHeight st).

Section movement.
(** [Math.sqrt], and the two [PointerLockControls] methods that translate
    the camera; the library decides where they move it. *)
Variable Math_sqrt : Q -> Q.
Variable controls_moveRight : Camera -> Q -> Vector3.
Variable controls_moveForward : Camera -> Q -> Vector3.

(** [Vector3.normalize]: division by [length() || 1]. *)
Definition normalize (v : Vector3) : Vector3 :=
  let len := Math_sqrt (vec_x v * vec_x v + vec_y v * vec_y v
                        + vec_z v * vec_z v) in
  let d := if Qeq_bool len 0 then 1 else len in
  mkVector3 (vec_x v / d) (vec_y v / d) (vec_z v / d).

(** [Vector3.crossVectors]. *)
Definition crossVectors (a b : Vector3) : Vector3 :=
  mkVector3 (vec_y a * vec_z b - vec_z a * vec_y b)
            (vec_z a * vec_x b - vec_x a * vec_z b)
            (vec_x a * vec_y b - vec_y a * vec_x b).

(** [getWaterDepth(x, z)]: the first pond whose centre is closer than its
    size decides; the distance enters the depth, so it is computed with
    [Math_sqrt]. *)
Fixpoint getWaterDepth (ponds : list Pond) (x z : Q) : WaterData :=
  match ponds with
  | [] => mkWaterData false 0
  | pond :: rest =>
      let distanceToPondCenter :=
        Math_sqrt ((x - pond_x pond) * (x - pond_x pond)
                   + (z - pond_z pond) * (z - pond_z pond)) in
      if Qltb distanceToPondCenter (pond_size pond) then
        let depthFactor := 1 - distanceToPondCenter / pond_size pond in
        mkWaterData true (pond_depth pond * depthFactor)
      else getWaterDepth rest x z
  end.

(** [updateMovement()], one frame of length [deltaTime]. *)
Definition updateMovement (deltaTime : Q)
    (collidableObjects : list Collidable) (ponds : list Pond) (st : State)
    : State :=
  let cam := camera st in
  let k := keys st in
  (* gravity *)
  let velocity_y := vec_y (velocity st) - 9.8 * 5.0 * deltaTime in
  let currentGroundHeight :=
    getGroundHeight collidableObjects (vec_x (position cam))
      (vec_z (position cam)) (vec_y (position cam)) in
  let groundLevel := currentGroundHeight + PLAYER_HEIGHT in
  let isGrounded := Qle_bool (vec_y (position cam)) (groundLevel + 0.1) in
  (* friction *)
  let friction := if isGrounded then 10.0 else 2.0 in
  let velocity_x :=
    vec_x (velocity st) - vec_x (velocity st) * friction * deltaTime in
  let velocity_z :=
    vec_z (velocity st) - vec_z (velocity st) * friction * deltaTime in
  let direction :=
    normalize (mkVector3 (Number (moveRight k) - Number (moveLeft k)) 0
                         (Number (moveForward k) - Number (moveBackward k))) in
  (* water *)
  let waterData :=
    getWaterDepth ponds (vec_x (position cam)) (vec_z (position cam)) in
  let '(waterResistance, cam1) :=
    if inWater waterData && isGrounded then
      let '(waterResistance, sinkRate) :=
        waterPolicy (depth waterData) (isRunning k) in
      let y := vec_y (position cam) - sinkRate * deltaTime in
      let waterBottom := - depth waterData in
      (waterResistance,
       setPositionY cam (if Qltb y (waterBottom + PLAYER_HEIGHT)
                         then waterBottom + PLAYER_HEIGHT else y))
    else (1.0, cam) in
  let speed := if isRunning k then RUN_SPEED else WALK_SPEED in
  let airControlFactor := if isGrounded then 1.0 else 0.7 in
  let finalSpeedFactor := airControlFactor * waterResistance in
  let velocity_z :=
    if moveForward k || moveBackward k
    then velocity_z - vec_z direction * speed * deltaTime * finalSpeedFactor
    else velocity_z in
  let velocity_x :=
    if moveLeft k || moveRight k
    then velocity_x - vec_x direction * speed * deltaTime * finalSpeedFactor
    else velocity_x in
  (* proposed position *)
  let moveVector :=
    normalize (mkVector3 (vec_x (worldDirection cam1)) 0
                         (vec_z (worldDirection cam1))) in
  let strafeVector := normalize (crossVectors (up cam1) moveVector) in
  let potentialX :=
    vec_x (position cam1) - vec_x strafeVector * velocity_x * deltaTime
    - vec_x moveVector * velocity_z * deltaTime in
  let potentialZ :=
    vec_z (position cam1) - vec_z strafeVector * velocity_x * deltaTime
    - vec_z moveVector * velocity_z * deltaTime in
  let '(cam2, velocity_x, velocity_z) :=
    if negb (checkCollision collidableObjects potentialX potentialZ
               (vec_y (position cam1)))
    then
      let camR :=
        mkCamera (controls_moveRight cam1 (- velocity_x * deltaTime))
                 (up cam1) (worldDirection cam1) in
      (mkCamera (controls_moveForward camR (- velocity_z * deltaTime))
                (up cam1) (worldDirection cam1),
       velocity_x, velocity_z)
    else (cam1, 0, 0) in
  (* vertical movement and ground collision *)
  let cam3 :=
    setPositionY cam2 (vec_y (position cam2) + velocity_y * deltaTime) in
  if Qltb (vec_y (position cam3)) groundLevel
  then mkState (setPositionY cam3 groundLevel)
               (mkVector3 velocity_x 0 velocity_z) k true currentGroundHeight
  else mkState cam3 (mkVector3 velocity_x velocity_y velocity_z) k
               (canJump st) currentGroundHeight.
End movement.

End Main.

(** ** Third-person player ([World.js], [Player.js]) *)

Module Player.

Definition terrainSize : Q := 100.
Definition terrainResolution : Z := 128.

(** The part of a [CANNON.Body] the player code reads and writes; [force]
    accumulates what [applyForce] adds. *)
Record Body : Type := mkBody {
  position : Vector3;
  velocity : Vector3;
  linearDamping : Q;
  force : Vector3
}.

(** [InputManager.keys]. *)
Record Keys : Type := mkKeys {
  forward : bool;
  backward : bool;
  left : bool;
  right : bool;
  jump : bool;
  run : bool
}.

Record State : Type := mkState {
  body : Body;
  meshPosition : Vector3;
  meshRotationY : Q;
  jumpCount : nat;
  canJump : bool;
  isSwimming : bool
}.

(** Which branch of the jump logic of [handleMovement] set [didJump]. *)
Inductive JumpResult : Type := NoJump | SwimJump | RegularJump.

Definition didJump (r : JumpResult) : bool :=
  match r with NoJump => false | _ => true end.

Definition setBody (s : State) (b : Body) : State :=
  mkState b (meshPosition s) (meshRotationY s) (jumpCount s) (canJump s)
          (isSwimming s).

(** The radius of the player's [CANNON.Sphere]. *)
Definition sphereRadius : Q := 0.8.

(** Whether a t^2 + b t + c, of discriminant [delta], has a root between
    0 and 1.  The two roots, (-b - sqrt delta) / (2 a) and
    (-b + sqrt delta) / (2 a), are compared with 0 and 1 in the exact
    meaning of the comparisons, without the square root. *)
Definition rootInUnit (a b delta : Q) : bool :=
  let e := 2 * a + b in
  Qle_bool 0 delta
  && ((Qle_bool b 0 && Qle_bool delta (b * b))
      && (Qle_bool 0 e || Qle_bool (e * e) delta)
      || (Qle_bool b 0 || Qle_bool (b * b) delta)
         && (Qle_bool 0 e && Qle_bool delta (e * e))).

(** The ray cast of the physics world against one sphere: whether the
    segment from [from] to [to] meets the surface of the sphere around
    [centre] with radius [r].  The points of the segment are
    from + t (to - from) with t between 0 and 1, and such a point lies on
    the surface when t is a root of a t^2 + b t + c, with the coefficients
    below. *)
Definition raySphereHit (from to centre : Vector3) (r : Q) : bool :=
  let dx := vec_x to - vec_x from in
  let dy := vec_y to - vec_y from in
  let dz := vec_z to - vec_z from in
  let ox := vec_x from - vec_x centre in
  let oy := vec_y from - vec_y centre in
  let oz := vec_z from - vec_z centre in
  let a := dx * dx + dy * dy + dz * dz in
  let b := 2 * (dx * ox + dy * oy + dz * oz) in
  let c := ox * ox + oy * oy + oz * oz - r * r in
  rootInUnit a b (b * b - 4 * a * c).

Section player.
(** The height samples filled in by [createTerrain], and [Math.sin] and
    [Math.cos]. *)
Variable terrainMatrix : Z -> Z -> Q.
Variable Math_sin : Q -> Q.
Variable Math_cos : Q -> Q.

(** [World.getTerrainHeightAt(x, z)]. *)
Definition getTerrainHeightAt (x z : Q) : Q :=
  let halfSize := terrainSize / 2 in
  if Qltb x (- halfSize) || Qltb halfSize x
     || Qltb z (- halfSize) || Qltb halfSize z
  then -100
  else
    let elementSize := terrainSize / (inject_Z terrainResolution - 1) in
    let ix := (x + halfSize) / elementSize in
    let iz := (z + halfSize) / elementSize in
    let ix1 := Qfloor ix in
    let iz1 := Qfloor iz in
    if (0 <=? ix1)%Z && (ix1 <? terrainResolution)%Z
       && (0 <=? iz1)%Z && (iz1 <? terrainResolution)%Z
    then terrainMatrix ix1 iz1
    else 0.

Definition resetToGround (s : State) : State :=
  let height := getTerrainHeightAt 0 0 in
  setBody s (mkBody (mkVector3 0 (height + 2) 0) (mkVector3 0 0 0)
                    (linearDamping (body s)) (force (body s))).

(** The safety clamp that opens [update]. *)
Definition safetyClamp (s : State) : State :=
  let p := position (body s) in
  let v := velocity (body s) in
  let terrainHeight := getTerrainHeightAt (vec_x p) (vec_z p) in
  let minHeight := terrainHeight + 0.8 in
  if Qltb (vec_y p) minHeight
  then setBody s (mkBody (mkVector3 (vec_x p) minHeight (vec_z p))
                         (mkVector3 (vec_x v) (Qmax 0 (vec_y v)) (vec_z v))
                         (linearDamping (body s)) (force (body s)))
  else s.

(** [handleMovement(deltaTime)]; [grounded] is the answer of the raycast
    of [isGrounded]. *)
Definition handleMovement (deltaTime : Q) (keys : Keys) (grounded : bool)
    (s : State) : State * JumpResult :=
  let swimming := isSwimming s in
  let speed := if run keys then 12 else 6 in
  let speed := if swimming then speed * 0.5 else speed in
  let jumpForce := 8 in
  let rotateSpeed := 2.5 * deltaTime in
  let rot := meshRotationY s in
  let rot := if left keys then rot + rotateSpeed else rot in
  let rot := if right keys then rot - rotateSpeed else rot in
  let moveForward :=
    if backward keys then -1 else if forward keys then 1 else 0 in
  let v := velocity (body s) in
  let '(velocity_x, velocity_z) :=
    if negb (Qeq_bool moveForward 0) then
      let dx := - Math_sin rot in
      let dz := - Math_cos rot in
      (dx * speed * moveForward, dz * speed * moveForward)
    else
      let friction := if swimming then 0.8 else 0.5 in
      (vec_x v * friction, vec_z v * friction) in
  let count := if grounded then 0%nat else jumpCount s in
  let '(velocity_y, count, swimming', canJump', result) :=
    if jump keys then
      if canJump s then
        if swimming && Qltb (-1.5) (vec_y (position (body s)))
        then (10, count, false, false, SwimJump)
        else if (count <? 3)%nat
        then (jumpForce, S count, swimming, false, RegularJump)
        else (vec_y v, count, swimming, false, NoJump)
      else (vec_y v, count, swimming, canJump s, NoJump)
    else (vec_y v, count, swimming, true, NoJump) in
  (mkState (mkBody (position (body s))
                   (mkVector3 velocity_x velocity_y velocity_z)
                   (linearDamping (body s)) (force (body s)))
           (meshPosition s) rot count canJump' swimming',
   result).

(** [checkWater()]: swimming state and buoyancy, then the respawn test. *)
Definition checkWater (s : State) : State :=
  let waterLevel := -0.5 in
  let b := body s in
  let y := vec_y (position b) in
  let s1 :=
    if Qltb y waterLevel then
      let depth := waterLevel - y in
      let f := force b in
      let f' :=
        if Qltb 0 depth
        then mkVector3 (vec_x f) (vec_y f + 20 * depth) (vec_z f)
        else f in
      mkState (mkBody (position b) (velocity b) 0.9 f')
              (meshPosition s) (meshRotationY s) (jumpCount s) (canJump s)
              true
    else
      mkState (mkBody (position b) (velocity b) 0.9 (force b))
              (meshPosition s) (meshRotationY s) (jumpCount s) (canJump s)
              false in
  if Qltb (vec_y (position (body s1))) (-20)
  then resetToGround s1
  else s1.

(** [update(deltaTime)].  [updateCamera] and [animateCharacter] move the
    camera and the limbs only and are left out. *)
Definition update (deltaTime : Q) (keys : Keys) (grounded : bool)
    (s : State) : State * JumpResult :=
  let s1 := safetyClamp s in
  let p := position (body s1) in
  let s2 :=
    mkState (body s1) (mkVector3 (vec_x p) (vec_y p + 0.1) (vec_z p))
            (meshRotationY s1) (jumpCount s1) (canJump s1) (isSwimming s1) in
  let '(s3, result) := handleMovement deltaTime keys grounded s2 in
  (checkWater s3, result).

(** [isGrounded()]: a ray from the body's position to the point 1.0 below
    it, cast with no filter against every body of the physics world.  The
    player's own body, the sphere of radius 0.8 that [initPlayer] adds to
    the same world, is centred at the start of the ray; [othersHit] is the
    answer of the cast for all other bodies (the terrain, rocks, doors). *)
Definition isGrounded (othersHit : bool) (b : Body) : bool :=
  let rayStart := position b in
  let rayEnd :=
    mkVector3 (vec_x rayStart) (vec_y rayStart - 1.0) (vec_z rayStart) in
  raySphereHit rayStart rayEnd (position b) sphereRadius || othersHit.

(** One frame of [Game.update] as the player sees it: the physics world
    steps the body in a way the player code does not control, then
    [update] runs with the current keys; [handleMovement] asks
    [isGrounded] about the body as the terrain clamp left it.
    [frame_othersHit] tells whether the ray meets a body other than the
    player's own. *)
Record Frame : Type := mkFrame {
  frame_deltaTime : Q;
  frame_keys : Keys;
  frame_othersHit : bool;
  frame_physics : Body -> Body
}.

Definition frameStep (f : Frame) (s : State) : State * JumpResult :=
  let s0 := setBody s (frame_physics f (body s)) in
  update (frame_deltaTime f) (frame_keys f)
         (isGrounded (frame_othersHit f) (body (safetyClamp s0))) s0.

(** The state after a run of frames, and the number of regular jumps
    honoured on the way. *)
Fixpoint runFrames (frames : list Frame) (s : State) : State * nat :=
  match frames with
  | [] => (s, 0%nat)
  | f :: rest =>
      let '(s1, result) := frameStep f s in
      let '(s2, n) := runFrames rest s1 in
      (s2, match result with RegularJump => S n | _ => n end)
  end.
End player.

End Player.

(** The initial [gameState] of [main.js], once the world builder has
    counted [totalGems] gems. *)
Definition initialGameState (totalGems : Z) : GameState :=
  mkGameState 0 0 totalGems false false [false; false; false] ∅ false 0.

(** A small park: one gem and the treasure chest near the gazebo. *)
Definition smallPark : list Collectible :=
  [ mkCollectible (mkVector3 10 1.5 10)
      (mkUserData false gem 100 false (Some 1.5));
    mkCollectible (mkVector3 (-70) 0.3 (-30))
      (mkUserData true no_type 0 false None) ].

(** A walk through the small park at eye height 2: to the gem, to the
    chest, then to the centre of each pond, the third pond last. *)
Definition pondsLastWalk : list (Q * Vector3) :=
  [ (0, mkVector3 10 2 10);
    (1, mkVector3 (-70) 2 (-30));
    (2, mkVector3 (-60) 2 40);
    (3, mkVector3 50 2 (-50));
    (4, mkVector3 (-30) 2 (-60)) ].

(** The points a collectible is worth: 500 for the treasure chest, its
    [userData.value] otherwise. *)
Definition pointsOf (ud : UserData) : Z :=
  if isTreasure ud then 500%Z else value ud.

(** What a collectible contributes to the score between two observations:
    its points if it went from uncollected to collected, nothing
    otherwise. *)
Definition gainOf (before after : Collectible) : Z :=
  if negb (collected (userData before)) && collected (userData after)
  then pointsOf (userData before) else 0%Z.

Fixpoint totalGain (before after : list Collectible) : Z :=
  match before, after with
  | b :: bs, a :: as_ => (gainOf b a + totalGain bs as_)%Z
  | _, _ => 0%Z
  end.

(** How one collectible may change over a session: a collected one stays
    as it is; an uncollected one keeps its [userData] (it may bob) or
    becomes collected. *)
Definition evolves (before after : Collectible) : Prop :=
  (collected (userData before) = true /\ after = before)
  \/ (collected (userData before) = false
      /\ (userData after = userData before
          \/ userData after = markCollected (userData before))).

(** ** Day, night, fog and doors ([main.js]) *)

(** [THREE.Fog(color, near, far)]. *)
Record Fog : Type := mkFog { fogColor : Z; fogNear : Q; fogFar : Q }.

(** The scene state the two toggles touch: the flags, the background
    colour, the fog, the intensities of the sun, the moon and the ambient
    light, and the intensity of each lamp of [lampLights].  The time label
    and the notifications they write to the page are left out. *)
Record Scene : Type := mkScene {
  isDay : bool;
  fogEnabled : bool;
  background : Z;
  fog : option Fog;
  sunIntensity : Q;
  moonIntensity : Q;
  ambientIntensity : Q;
  lampLights : list Q
}.

(** The scene after [init]: [setupLighting] and one lamp of intensity 0.5
    per lamp post. *)
Definition initialScene (lampPosts : nat) : Scene :=
  mkScene true true 0x87CEEB (Some (mkFog 0x87CEEB 50 400)) 1.5 0 0.5
          (replicate lampPosts 0.5).

Definition toggleDayNight (s : Scene) : Scene :=
  let isDay := negb (isDay s) in
  if isDay then
    mkScene isDay (fogEnabled s) 0x87CEEB
            (if fogEnabled s then Some (mkFog 0x87CEEB 50 400) else fog s)
            1.5 0 0.5 (map (fun _ => 0) (lampLights s))
  else
    mkScene isDay (fogEnabled s) 0x0a0a2e
            (if fogEnabled s then Some (mkFog 0x0a0a2e 30 200) else fog s)
            0 0.8 0.2 (map (fun _ => 1.2) (lampLights s)).

Definition toggleFog (s : Scene) : Scene :=
  let fogEnabled := negb (fogEnabled s) in
  mkScene (isDay s) fogEnabled (background s)
          (if fogEnabled
           then if isDay s then Some (mkFog 0x87CEEB 50 400)
                else Some (mkFog 0x0a0a2e 30 200)
           else None)
          (sunIntensity s) (moonIntensity s) (ambientIntensity s)
          (lampLights s).

(** The fog matches the flags: none when fog is off, the day or the night
    fog when it is on. *)
Definition fogConsistent (s : Scene) : Prop :=
  fog s = if fogEnabled s
          then if isDay s then Some (mkFog 0x87CEEB 50 400)
               else Some (mkFog 0x0a0a2e 30 200)
          else None.

(** An entry of [doors]: the x coordinate of the door's mesh group, the
    fixed anchor [position] used for the proximity test, [isOpen], and the
    building it belongs to. *)
Record Door : Type := mkDoor {
  doorMeshX : Q;
  doorPosition : Vector3;
  doorIsOpen : bool;
  buildingX : Q;
  buildingZ : Q
}.

(** [a.distanceTo(b) < bound] for [Vector3]. *)
Definition dist3_lt (a b : Vector3) (bound : Q) : bool :=
  Qltb 0 bound
  && Qltb ((vec_x a - vec_x b) * (vec_x a - vec_x b)
           + (vec_y a - vec_y b) * (vec_y a - vec_y b)
           + (vec_z a - vec_z b) * (vec_z a - vec_z b))
          (bound * bound).

Definition toggleDoor (door : Door) : Door :=
  let isOpen := negb (doorIsOpen door) in
  mkDoor (if isOpen then doorMeshX door + 2.5 else doorMeshX door - 2.5)
         (doorPosition door) isOpen (buildingX door) (buildingZ door).

(** [toggleNearbyDoor()]: the first door within 3 units of the camera is
    toggled and the loop returns. *)
Fixpoint toggleNearbyDoor (playerPos : Vector3) (doors : list Door)
    : list Door :=
  match doors with
  | [] => []
  | door :: rest =>
      if dist3_lt playerPos (doorPosition door) 3
      then toggleDoor door :: rest
      else door :: toggleNearbyDoor playerPos rest
  end.

(** Two door lists that agree up to equality of rationals. *)
Definition sameDoor (d d' : Door) : Prop :=
  doorMeshX d' == doorMeshX d
  /\ doorPosition d' = doorPosition d
  /\ doorIsOpen d' = doorIsOpen d
  /\ buildingX d' = buildingX d
  /\ buildingZ d' = buildingZ d.

(** ** The game-state module ([src/game/state.js]) *)

Module StateJs.

Definition addScore (points : Z) (gs : GameState) : GameState * Z :=
  (addScore points gs, (score gs + points)%Z).

Definition collectGem (gs : GameState) : GameState :=
  let gs1 := incrementGems gs in
  if (totalGems gs1 <=? gemsCollected gs1)%Z
  then completeObjective 0 gs1
  else gs1.

Definition collectTreasure (gs : GameState) : GameState :=
  completeObjective 1 (setTreasureFound gs).

Definition visitPond (pondIndex : nat) (gs : GameState) : GameState :=
  let gs1 := addPondVisited pondIndex gs in
  if (3 <=? size (pondsVisited gs1))%nat
  then completeObjective 2 gs1
  else gs1.

(** [checkWinCondition()], with its return value. *)
Definition checkWinCondition (gs : GameState) : GameState * bool :=
  if allObjectivesCompleted gs && negb (gameWon gs)
  then (mkGameState (score gs) (gemsCollected gs) (totalGems gs)
          (gameStarted gs) true (objectives gs) (pondsVisited gs)
          (treasureFound gs) (winScreens gs),
        true)
  else (gs, false).

Definition setTotalGems (count : Z) (gs : GameState) : GameState :=
  mkGameState (score gs) (gemsCollected gs) count (gameStarted gs)
    (gameWon gs) (objectives gs) (pondsVisited gs) (treasureFound gs)
    (winScreens gs).

Definition incrementTotalGems (gs : GameState) : GameState :=
  setTotalGems (totalGems gs + 1)%Z gs.

End StateJs.

(** ** The collectibles manager of the third-person build
    ([CollectiblesManager]) *)

Module Collectibles.

Inductive ItemType : Type := gem | gold.

(** An entry of [items]; [body] names its trigger body in the physics
    world. *)
Record Item : Type := mkItem {
  value : Z;
  type : ItemType;
  active : bool;
  body : nat
}.

(** The manager, with the bodies currently in the physics world. *)
Record Manager : Type := mkManager {
  items : list Item;
  itemsToRemove : list nat;
  score : Z;
  worldBodies : gset nat
}.

(** [collect(item)] for the item at position [i] of [items]. *)
Definition collect (i : nat) (m : Manager) : Manager :=
  match items m !! i with
  | Some item =>
      if negb (active item) then m
      else
        mkManager
          (<[i := mkItem (value item) (type item) false (body item)]>
             (items m))
          (itemsToRemove m ++ [body item])
          (score m + value item)%Z
          (worldBodies m)
  | None => m
  end.

(** The removal pass that opens [update(deltaTime)]; the spin and float
    animation that follows changes positions only. *)
Definition update (m : Manager) : Manager :=
  mkManager (items m) []
            (score m)
            (foldl (fun bodies b => bodies ∖ {[ b ]}) (worldBodies m)
                   (itemsToRemove m)).

(** The value still to be collected. *)
Definition remaining (its : list Item) : Z :=
  foldr (fun item acc => if active item then (value item + acc)%Z else acc)
        0%Z its.

End Collectibles.

(** ** Keyboard state of the third-person build ([InputManager]) *)

Module Input.

Inductive KeyCode : Type :=
  | KeyW | ArrowUp | KeyS | ArrowDown | KeyA | ArrowLeft | KeyD | ArrowRight
  | Space | ShiftLeft | ShiftRight | OtherKey.

Definition setKey (code : KeyCode) (pressed : bool) (keys : Player.Keys)
    : Player.Keys :=
  match code with
  | KeyW | ArrowUp =>
      Player.mkKeys pressed (Player.backward keys) (Player.left keys)
        (Player.right keys) (Player.jump keys) (Player.run keys)
  | KeyS | ArrowDown =>
      Player.mkKeys (Player.forward keys) pressed (Player.left keys)
        (Player.right keys) (Player.jump keys) (Player.run keys)
  | KeyA | ArrowLeft =>
      Player.mkKeys (Player.forward keys) (Player.backward keys) pressed
        (Player.right keys) (Player.jump keys) (Player.run keys)
  | KeyD | ArrowRight =>
      Player.mkKeys (Player.forward keys) (Player.backward keys)
        (Player.left keys) pressed (Player.jump keys) (Player.run keys)
  | Space =>
      Player.mkKeys (Player.forward keys) (Player.backward keys)
        (Player.left keys) (Player.right keys) pressed (Player.run keys)
  | ShiftLeft | ShiftRight =>
      Player.mkKeys (Player.forward keys) (Player.backward keys)
        (Player.left keys) (Player.right keys) (Player.jump keys) pressed
  | OtherKey => keys
  end.

(** [onKeyDown(event)] and [onKeyUp(event)] by [event.code]: the two
    switches have the same cases and differ only in the value stored,
    which [setKey] takes as [pressed]. *)
Definition onKeyDown (code : KeyCode) : Player.Keys -> Player.Keys :=
  setKey code true.

Definition onKeyUp (code : KeyCode) : Player.Keys -> Player.Keys :=
  setKey code false.

(** Two key codes that drive the same flag. *)
Definition sameFlag (c1 c2 : KeyCode) : bool :=
  match c1, c2 with
  | (KeyW | ArrowUp), (KeyW | ArrowUp)
  | (KeyS | ArrowDown), (KeyS | ArrowDown)
  | (KeyA | ArrowLeft), (KeyA | ArrowLeft)
  | (KeyD | ArrowRight), (KeyD | ArrowRight)
  | Space, Space
  | (ShiftLeft | ShiftRight), (ShiftLeft | ShiftRight) => true
  | _, _ => false
  end.

End Input.

(** ** The earlier third-person player ([unnamed/part_001]) *)

Module PlayerV1.

Record State : Type := mkState {
  body : Player.Body;
  meshPosition : Vector3;
  meshRotationY : Q
}.

Definition setBody (s : State) (b : Player.Body) : State :=
  mkState b (meshPosition s) (meshRotationY s).

Section player.
Variable terrainMatrix : Z -> Z -> Q.
Variable Math_sqrt : Q -> Q.
Variable Math_atan2 : Q -> Q -> Q.

Definition resetToGround (s : State) : State :=
  let height := Player.getTerrainHeightAt terrainMatrix 0 0 in
  setBody s (Player.mkBody (mkVector3 0 (height + 2) 0) (mkVector3 0 0 0)
                           (Player.linearDamping (body s))
                           (Player.force (body s))).

Definition safetyClamp (s : State) : State :=
  let p := Player.position (body s) in
  let v := Player.velocity (body s) in
  let terrainHeight :=
    Player.getTerrainHeightAt terrainMatrix (vec_x p) (vec_z p) in
  let minHeight := terrainHeight + 0.8 in
  if Qltb (vec_y p) minHeight
  then setBody s
         (Player.mkBody (mkVector3 (vec_x p) minHeight (vec_z p))
            (mkVector3 (vec_x v) (Qmax 0 (vec_y v)) (vec_z v))
            (Player.linearDamping (body s)) (Player.force (body s)))
  else s.

Definition addScaled (v : Vector3) (k : Q) (w : Vector3) : Vector3 :=
  mkVector3 (vec_x v + k * vec_x w) (vec_y v + k * vec_y w)
            (vec_z v + k * vec_z w).

(** [handleMovement(deltaTime)].  [cameraForward] and [cameraRight] are
    the vectors (0, 0, -1) and (1, 0, 0) turned by the camera quaternion;
    [grounded] is the answer of the raycast of [isGrounded]. *)
Definition handleMovement (keys : Player.Keys) (grounded : bool)
    (cameraForward cameraRight : Vector3) (s : State) : State :=
  let speed := if Player.run keys then 12 else 6 in
  let jumpForce := 8 in
  let forward :=
    Main.normalize Math_sqrt
      (mkVector3 (vec_x cameraForward) 0 (vec_z cameraForward)) in
  let right :=
    Main.normalize Math_sqrt
      (mkVector3 (vec_x cameraRight) 0 (vec_z cameraRight)) in
  let direction := mkVector3 0 0 0 in
  let direction :=
    if Player.forward keys then addScaled direction 1 forward
    else direction in
  let direction :=
    if Player.backward keys then addScaled direction (-1) forward
    else direction in
  let direction :=
    if Player.right keys then addScaled direction 1 right else direction in
  let direction :=
    if Player.left keys then addScaled direction (-1) right else direction in
  let v := Player.velocity (body s) in
  let length :=
    Math_sqrt (vec_x direction * vec_x direction
               + vec_y direction * vec_y direction
               + vec_z direction * vec_z direction) in
  let '(velocity_x, velocity_z, rot) :=
    if Qltb 0 length then
      let direction := Main.normalize Math_sqrt direction in
      (vec_x direction * speed, vec_z direction * speed,
       Math_atan2 (vec_x direction) (vec_z direction))
    else (vec_x v * 0.5, vec_z v * 0.5, meshRotationY s) in
  let velocity_y :=
    if Player.jump keys then if grounded then jumpForce else vec_y v
    else vec_y v in
  mkState (Player.mkBody (Player.position (body s))
                         (mkVector3 velocity_x velocity_y velocity_z)
                         (Player.linearDamping (body s))
                         (Player.force (body s)))
          (meshPosition s) rot.

Definition checkWater (s : State) : State :=
  let b := body s in
  let s1 :=
    if Qltb (vec_y (Player.position b)) (-0.5) then
      let f := Player.force b in
      setBody s (Player.mkBody (Player.position b) (Player.velocity b) 0.95
                   (mkVector3 (vec_x f) (vec_y f + 15) (vec_z f)))
    else
      setBody s (Player.mkBody (Player.position b) (Player.velocity b) 0.9
                   (Player.force b)) in
  if Qltb (vec_y (Player.position (body s1))) (-20)
  then resetToGround s1
  else s1.

Definition update (keys : Player.Keys) (grounded : bool)
    (cameraForward cameraRight : Vector3) (s : State) : State :=
  let s1 := safetyClamp s in
  let p := Player.position (body s1) in
  let s2 :=
    mkState (body s1) (mkVector3 (vec_x p) (vec_y p + 0.1) (vec_z p))
            (meshRotationY s1) in
  checkWater (handleMovement keys grounded cameraForward cameraRight s2).
End player.

End PlayerV1.

(** ** Vocabulary of the specification *)

(** The footprint test of the collision query: planar distance from
    [(newX, newZ)] to the obstacle's centre below the sum of the radii. *)
Definition intersects (playerRadius newX newZ : Q) (obj : Collidable) : Prop :=
  dist_lt (newX - vec_x (position obj)) (newZ - vec_z (position obj))
          (playerRadius + radius obj) = true.

(** A landing candidate of the ground-height resolver: a defined top
    height [h], the query point inside the footprint, and the current
    height inside the landing window [h - 0.5, h + 3.0]. *)
Definition landingCandidate (x z currentY : Q) (obj : Collidable) (h : Q)
    : Prop :=
  height obj = Some h
  /\ dist_lt (x - vec_x (position obj)) (z - vec_z (position obj))
             (radius obj) = true
  /\ h - 0.5 <= currentY /\ currentY <= h + 3.

(** The data-model invariant on platform heights: a top height, when
    present, is not negative. *)
Definition heightsNonNegative (collidableObjects : list Collidable) : Prop :=
  forall obj h, obj ∈ collidableObjects -> height obj = Some h -> 0 <= h.

(** How the win flag may move between two game states: it is never
    cleared, completed objectives stay completed, and the flag is set only
    in a state where all objectives are completed. *)
Definition winStep (gs gs' : GameState) : Prop :=
  (gameWon gs = true -> gameWon gs' = true)
  /\ (allObjectivesCompleted gs = true -> allObjectivesCompleted gs' = true)
  /\ (gameWon gs' = true ->
      gameWon gs = true \/ allObjectivesCompleted gs' = true).

(** Whether the player stands within the discovery radius 20 of a
    pond. *)
Definition nearPond (playerPos : Vector3) (pond : Pond) : bool :=
  dist_lt (vec_x playerPos - pond_x pond) (vec_z playerPos - pond_z pond) 20.

(** How the win screen may be shown between two game states: the win flag
    is never cleared, and the screen is shown once more exactly when the
    flag went from unset to set. *)
Definition winShown (gs gs' : GameState) : Prop :=
  (gameWon gs = true -> gameWon gs' = true)
  /\ winScreens gs'
     = (winScreens gs
        + (if negb (gameWon gs) && gameWon gs' then 1 else 0))%nat.

(** What a collectible adds to the gem counter when collected: one for a
    collectible of type [gem] that is not the treasure chest, nothing for
    coins, building treasures and the chest. *)
Definition gemCount (ud : UserData) : Z :=
  if isTreasure ud then 0%Z
  else match userType ud with gem => 1%Z | _ => 0%Z end.

Definition gemGainOf (before after : Collectible) : Z :=
  if negb (collected (userData before)) && collected (userData after)
  then gemCount (userData before) else 0%Z.

Fixpoint totalGemGain (before after : list Collectible) : Z :=
  match before, after with
  | b :: bs, a :: as_ => (gemGainOf b a + totalGemGain bs as_)%Z
  | _, _ => 0%Z
  end.

(* ===================================================================== *)
(** * Properties *)

Lemma Qltb_lt (a b : Q) : Qltb a b = true <-> a < b.
Proof.
  unfold Qltb. rewrite negb_true_iff.
  split.
  - intros H. apply Qnot_le_lt. intros Hle.
    apply Qle_bool_iff in Hle. congruence.
  - intros H. destruct (Qle_bool b a) eqn:E; [|reflexivity].
    apply Qle_bool_iff in E. lra.
Qed.

Lemma Qltb_ge (a b : Q) : Qltb a b = false <-> b <= a.
Proof.
  unfold Qltb. rewrite negb_false_iff. apply Qle_bool_iff.
Qed.

(** The planar distance test means what the source computes over the
    reals: [dist_lt dx dz bound] holds exactly when the square root of
    [dx * dx + dz * dz] is below [bound]. *)
Lemma sqrt_lt_iff (a b : R) :
  (0 <= a)%R -> (sqrt a < b <-> 0 < b /\ a < b * b)%R.
Proof.
  intros Ha. split.
  - intros H. pose proof (sqrt_pos a) as Hs.
    split; [Lra.lra|].
    rewrite <- (sqrt_sqrt a Ha) at 1.
    apply Rmult_le_0_lt_compat; Lra.lra.
  - intros [Hb H].
    rewrite <- (sqrt_square b) by Lra.lra.
    apply sqrt_lt_1; Lra.nra.
Qed.

Lemma Q2R_zero : Q2R 0 = 0%R.
Proof. unfold Q2R. simpl. Lra.lra. Qed.

Lemma dist_lt_sqrt (dx dz bound : Q) :
  dist_lt dx dz bound = true
  <-> (sqrt (Q2R dx * Q2R dx + Q2R dz * Q2R dz) < Q2R bound)%R.
Proof.
  unfold dist_lt. rewrite andb_true_iff, !Qltb_lt.
  rewrite sqrt_lt_iff by Lra.nra.
  rewrite <- Q2R_zero, <- !Q2R_mult, <- Q2R_plus.
  split; intros [H1 H2].
  - split; now apply Qlt_Rlt.
  - split; now apply Rlt_Qlt.
Qed.

(** ** Collision query *)

Lemma checkCollision_existsb (R B : Q) (objs : list Collidable) (x z y : Q) :
  checkCollision R B objs x z y
  = existsb (blocksAt R x z y) objs || (Qltb B (Qabs x) || Qltb B (Qabs z)).
Proof.
  induction objs as [|obj rest IH]; simpl; [reflexivity|].
  unfold blocksAt at 1.
  destruct (dist_lt _ _ _); simpl; [|exact IH].
  destruct (height obj) as [h|]; [|reflexivity].
  destruct (Qltb (h + 1.5) y); simpl; [exact IH|reflexivity].
Qed.

Lemma existsb_Permutation {A : Type} (f : A -> bool) (l l' : list A) :
  l ≡ₚ l' -> existsb f l = existsb f l'.
Proof.
  induction 1 as [|a l l' _ IH|a b l|l l' l'' _ IH1 _ IH2]; simpl.
  - reflexivity.
  - now rewrite IH.
  - now destruct (f a), (f b).
  - now rewrite IH1.
Qed.

Lemma registerAll_app (objs reg : list Collidable) :
  registerAll objs reg = reg ++ objs.
Proof.
  revert reg. induction objs as [|o objs IH]; intros reg; simpl.
  - now rewrite app_nil_r.
  - rewrite IH. unfold registerCollidable. now rewrite <- app_assoc.
Qed.

(** ** Ground-height resolver *)

Lemma groundHeightLoop_cons (obj : Collidable) (rest : list Collidable)
    (x z y acc : Q) :
  groundHeightLoop (obj :: rest) x z y acc
  = groundHeightLoop rest x z y (landingStep x z y obj acc).
Proof.
  simpl. unfold landingStep.
  destruct (height obj) as [h|]; [|reflexivity].
  destruct (Qeq_bool h 0); simpl; [reflexivity|].
  destruct (dist_lt _ _ _); simpl; [|reflexivity].
  destruct (Qle_bool (h - 0.5) y); simpl; [|reflexivity].
  destruct (Qle_bool y (h + 3)); reflexivity.
Qed.

Lemma landingStep_compat (x z y : Q) (obj : Collidable) (a a' : Q) :
  a == a' -> landingStep x z y obj a == landingStep x z y obj a'.
Proof.
  intros E. unfold landingStep.
  destruct (height obj) as [h|]; [|exact E].
  destruct (_ && _); [|exact E].
  now rewrite E.
Qed.

Lemma landingStep_swap (x z y : Q) (o1 o2 : Collidable) (a : Q) :
  landingStep x z y o1 (landingStep x z y o2 a)
  == landingStep x z y o2 (landingStep x z y o1 a).
Proof.
  unfold landingStep.
  destruct (height o1) as [h1|], (height o2) as [h2|]; try reflexivity.
  destruct (_ && _), (_ && _); try reflexivity.
  rewrite <- !Q.max_assoc. now rewrite (Q.max_comm h1 h2).
Qed.

Lemma landingStep_ge (x z y : Q) (obj : Collidable) (a : Q) :
  a <= landingStep x z y obj a.
Proof.
  unfold landingStep.
  destruct (height obj) as [h|]; [|lra].
  destruct (_ && _); [apply Q.le_max_l|lra].
Qed.

Lemma groundHeightLoop_compat (objs : list Collidable) (x z y a a' : Q) :
  a == a' -> groundHeightLoop objs x z y a == groundHeightLoop objs x z y a'.
Proof.
  revert a a'. induction objs as [|o objs IH]; intros a a' E.
  - exact E.
  - rewrite !groundHeightLoop_cons. apply IH. now apply landingStep_compat.
Qed.

Lemma groundHeightLoop_Permutation (l l' : list Collidable) (x z y a : Q) :
  l ≡ₚ l' -> groundHeightLoop l x z y a == groundHeightLoop l' x z y a.
Proof.
  intros HP. revert a.
  induction HP as [|o l l' _ IH|o1 o2 l|l l' l'' _ IH1 _ IH2]; intros a.
  - reflexivity.
  - rewrite !groundHeightLoop_cons. apply IH.
  - rewrite !groundHeightLoop_cons.
    apply groundHeightLoop_compat, landingStep_swap.
  - now rewrite IH1.
Qed.

Lemma groundHeightLoop_ge (objs : list Collidable) (x z y a : Q) :
  a <= groundHeightLoop objs x z y a.
Proof.
  revert a. induction objs as [|o objs IH]; intros a.
  - simpl. lra.
  - rewrite groundHeightLoop_cons.
    eapply Qle_trans; [apply landingStep_ge|apply IH].
Qed.

Lemma landingStep_cases (x z y : Q) (obj : Collidable) (a : Q) :
  landingStep x z y obj a = a
  \/ exists h, landingCandidate x z y obj h
               /\ landingStep x z y obj a = Qmax a h.
Proof.
  unfold landingStep, landingCandidate.
  destruct (height obj) as [h|]; [|now left].
  destruct (negb (Qeq_bool h 0)) eqn:E0; simpl; [|now left].
  destruct (dist_lt _ _ _) eqn:Ed; simpl; [|now left].
  destruct (Qle_bool (h - 0.5) y) eqn:E1; simpl; [|now left].
  destruct (Qle_bool y (h + 3)) eqn:E2; simpl; [|now left].
  right. exists h. apply Qle_bool_iff in E1, E2. auto.
Qed.

Lemma landingStep_candidate (x z y : Q) (obj : Collidable) (h a : Q) :
  landingCandidate x z y obj h -> 0 <= a -> h <= landingStep x z y obj a.
Proof.
  intros (Hh & Hd & H1 & H2) Ha. unfold landingStep. rewrite Hh, Hd.
  apply Qle_bool_iff in H1, H2. rewrite H1, H2.
  destruct (Qeq_bool h 0) eqn:E0; simpl.
  - apply Qeq_bool_iff in E0. lra.
  - apply Q.le_max_r.
Qed.

(** The loop returns an upper bound of every candidate's height, and its
    result is the incoming maximum or the height of some candidate. *)
Lemma groundHeightLoop_spec (objs : list Collidable) (x z y a : Q) :
  0 <= a ->
  (forall o h, o ∈ objs -> landingCandidate x z y o h ->
     h <= groundHeightLoop objs x z y a)
  /\ (groundHeightLoop objs x z y a == a
      \/ exists o h, o ∈ objs /\ landingCandidate x z y o h
                     /\ h == groundHeightLoop objs x z y a).
Proof.
  revert a. induction objs as [|obj rest IH]; intros a Ha.
  - split; [|left; reflexivity].
    intros o h Hin. inversion Hin.
  - rewrite groundHeightLoop_cons.
    pose proof (landingStep_ge x z y obj a) as Hstep.
    destruct (IH (landingStep x z y obj a)) as [IHub IHatt]; [lra|].
    split.
    + intros o h Hin Hc. apply elem_of_cons in Hin as [->|Hin].
      * eapply Qle_trans; [apply landingStep_candidate; eassumption|].
        apply groundHeightLoop_ge.
      * exact (IHub o h Hin Hc).
    + destruct IHatt as [Heq|(o & h & Hin & Hc & Hh)].
      * destruct (landingStep_cases x z y obj a) as [E|(h & Hc & E)].
        -- left. rewrite E in Heq |- *. exact Heq.
        -- rewrite E in Heq |- *.
           destruct (Q.max_dec a h) as [Em|Em].
           ++ left. now rewrite Heq.
           ++ right. exists obj, h. split; [apply list_elem_of_here|].
              split; [exact Hc|]. now rewrite Heq.
      * right. exists o, h. split; [now apply list_elem_of_further|]. auto.
Qed.

(** ** Claims about the registry and the queries *)

(** C1 (amended): for every registered obstacle whose height is unset,
    [checkCollision] returns true whenever the planar distance from the
    query point to the obstacle's centre is below the sum of the two radii,
    at every player height. *)
Theorem checkCollision_unset_height_blocks
    (R B : Q) (objs : list Collidable) (obj : Collidable) (newX newZ : Q) :
  obj ∈ objs ->
  height obj = None ->
  intersects R newX newZ obj ->
  forall playerY, checkCollision R B objs newX newZ playerY = true.
Proof.
  intros Hin Hh Hd playerY.
  rewrite checkCollision_existsb. apply orb_true_iff. left.
  apply existsb_exists. exists obj. split.
  - now apply list_elem_of_In.
  - unfold blocksAt. unfold intersects in Hd. now rewrite Hd, Hh.
Qed.

(** The tree of the specification's scenario: centre (10, 0), radius 2, no
    height; the query point (10.5, 1) is blocked at height 7. *)
Lemma checkCollision_unset_height_blocks_witness :
  Main.checkCollision
    [mkCollidable (mkVector3 10 0 0) 2 tree None] 10.5 1 7 = true.
Proof.
  apply (checkCollision_unset_height_blocks Main.PLAYER_RADIUS
           Main.WORLD_BOUNDARY _ (mkCollidable (mkVector3 10 0 0) 2 tree None)).
  - apply list_elem_of_here.
  - reflexivity.
  - reflexivity.
Defined.

(** C1 as stated fails for a height of zero: an obstacle registered with
    [height: 0] lets a player above 1.5 pass through its footprint. *)
Lemma checkCollision_zero_height_not_blocking :
  ~ (forall (objs : list Collidable) (obj : Collidable) (newX newZ : Q),
       obj ∈ objs ->
       (height obj = None \/ height obj = Some 0) ->
       intersects Main.PLAYER_RADIUS newX newZ obj ->
       forall playerY, Main.checkCollision objs newX newZ playerY = true).
Proof.
  intros H.
  pose (o := mkCollidable (mkVector3 0 0 0) 2 terrace (Some 0)).
  specialize (H [o] o 0 0 (list_elem_of_here _ _) (or_intror eq_refl)
                eq_refl 2).
  vm_compute in H. discriminate.
Qed.

(** C2: [getGroundHeight] is never negative, bounds the top height of
    every landing candidate from above, is 0 or the top height of some
    candidate, and is 0 when there is no candidate; under the data-model
    invariant that top heights are not negative it is the top height of
    some candidate whenever there is one, that is, the maximum over the
    candidates. *)
Theorem getGroundHeight_max_candidate
    (objs : list Collidable) (x z currentY : Q) :
  let g := getGroundHeight objs x z currentY in
  0 <= g
  /\ (forall o h, o ∈ objs -> landingCandidate x z currentY o h -> h <= g)
  /\ (g == 0
      \/ exists o h, o ∈ objs /\ landingCandidate x z currentY o h /\ h == g)
  /\ (~ (exists o h, o ∈ objs /\ landingCandidate x z currentY o h) ->
      g == 0)
  /\ (heightsNonNegative objs ->
      (exists o h, o ∈ objs /\ landingCandidate x z currentY o h) ->
      exists o h, o ∈ objs /\ landingCandidate x z currentY o h /\ h == g).
Proof.
  cbv zeta. unfold getGroundHeight.
  destruct (groundHeightLoop_spec objs x z currentY 0) as [Hub Hatt]; [lra|].
  split; [apply groundHeightLoop_ge|].
  split; [exact Hub|].
  split; [exact Hatt|].
  split.
  - intros Hno. destruct Hatt as [E|(o & h & Hin & Hc & _)]; [exact E|].
    exfalso. apply Hno. now exists o, h.
  - intros Hinv (o & h & Hin & Hc).
    destruct Hatt as [E|Hex]; [|exact Hex].
    exists o, h. split; [exact Hin|]. split; [exact Hc|].
    pose proof (Hub o h Hin Hc) as Hle.
    pose proof (Hinv o h Hin (proj1 Hc)) as Hge.
    rewrite E in *. lra.
Qed.

(** The platform of the specification's scenario: centre (0, 0), radius 5,
    top height 3, player falling at height 3.2: the resolver returns the
    height of a candidate, which can only be 3. *)
Lemma getGroundHeight_max_candidate_witness :
  let p := mkCollidable (mkVector3 0 0 0) 5 terrace (Some 3) in
  exists o h, o ∈ [p] /\ landingCandidate 0 0 3.2 o h
              /\ h == getGroundHeight [p] 0 0 3.2.
Proof.
  intros p.
  apply (proj2 (proj2 (proj2 (proj2
           (getGroundHeight_max_candidate [p] 0 0 3.2))))).
  - intros o h Hin Hh. apply list_elem_of_singleton in Hin. subst o.
    simpl in Hh. injection Hh as <-. unfold Qle. simpl. lia.
  - exists p, 3. split; [apply list_elem_of_here|].
    unfold landingCandidate. repeat split; try reflexivity.
    + unfold Qle. simpl. lia.
    + unfold Qle. simpl. lia.
Defined.

(** The platform scenario evaluated: a player at height 5 crosses the
    footprint unblocked, and a player falling at height 3.2 lands at 3. *)
Example platform_scenario :
  let p := mkCollidable (mkVector3 0 0 0) 5 terrace (Some 3) in
  Main.checkCollision [p] 1 1 5 = false
  /\ Main.checkCollision [p] 1 1 3.2 = true
  /\ getGroundHeight [p] 1 1 3.2 == 3
  /\ getGroundHeight [p] 1 1 7 == 0.
Proof. vm_compute. repeat split; congruence. Qed.

(** C7: registering the same obstacles in any order gives the same
    [checkCollision] verdict and the same [getGroundHeight] for every
    query. *)
Theorem queries_registration_order_irrelevant
    (R B : Q) (objs objs' : list Collidable) (x z y : Q) :
  objs ≡ₚ objs' ->
  checkCollision R B (registerAll objs []) x z y
  = checkCollision R B (registerAll objs' []) x z y
  /\ getGroundHeight (registerAll objs []) x z y
     == getGroundHeight (registerAll objs' []) x z y.
Proof.
  intros HP. rewrite !registerAll_app. simpl. split.
  - rewrite !checkCollision_existsb. f_equal.
    now apply existsb_Permutation.
  - unfold getGroundHeight. now apply groundHeightLoop_Permutation.
Qed.

Lemma queries_registration_order_irrelevant_witness :
  let t := mkCollidable (mkVector3 10 0 0) 2 tree None in
  let p := mkCollidable (mkVector3 0 0 0) 5 terrace (Some 3) in
  checkCollision 1 240 (registerAll [t; p] []) 1 1 3.2
  = checkCollision 1 240 (registerAll [p; t] []) 1 1 3.2
  /\ getGroundHeight (registerAll [t; p] []) 1 1 3.2
     == getGroundHeight (registerAll [p; t] []) 1 1 3.2.
Proof.
  intros t p.
  apply (queries_registration_order_irrelevant 1 240 [t; p] [p; t]).
  apply perm_swap.
Defined.

(** C9 as stated fails: an obstacle of radius zero is registered like any
    other one and is in the registry afterwards. *)
Lemma registerCollidable_accepts_zero_radius :
  let o := mkCollidable (mkVector3 0 0 0) 0 boulder None in
  o ∈ registerCollidable o (clearCollidables [])
  /\ ~ (Forall (fun c => 0 < radius c) (registerAll [o] [])).
Proof.
  intros o. split.
  - apply list_elem_of_here.
  - intros H. apply Forall_inv in H. simpl in H.
    revert H. unfold Qlt. simpl. lia.
Qed.

(** C9 (amended): registration validates nothing.  Every obstacle offered
    to [registerCollidable] is appended, so after a sequence of
    registrations the registry holds exactly the old entries followed by
    the offered obstacles, and every entry of a registry built from empty
    has a positive radius exactly when every offered obstacle had one. *)
Theorem registerCollidable_unchecked
    (objs registry : list Collidable) :
  registerAll objs registry = registry ++ objs
  /\ (Forall (fun c => 0 < radius c) (registerAll objs [])
      <-> Forall (fun c => 0 < radius c) objs).
Proof.
  split; [apply registerAll_app|].
  now rewrite registerAll_app.
Qed.

(** ** Collectibles and score *)

Lemma score_checkWinCondition (gs : GameState) :
  score (checkWinCondition gs) = score gs.
Proof. unfold checkWinCondition. now destruct (_ && _). Qed.

Lemma collectItem_spec (c : Collectible) (gs : GameState) :
  userData (fst (collectItem c gs)) = markCollected (userData c)
  /\ score (snd (collectItem c gs)) = (score gs + pointsOf (userData c))%Z.
Proof.
  unfold collectItem, pointsOf. simpl. split; [reflexivity|].
  rewrite score_checkWinCondition.
  destruct (isTreasure (userData c)); [reflexivity|].
  destruct (userType (userData c)); simpl; try reflexivity.
  now destruct (_ <=? _)%Z.
Qed.

Lemma gainOf_same (c : Collectible) : gainOf c c = 0%Z.
Proof. unfold gainOf. now destruct (collected (userData c)). Qed.

Lemma evolves_refl (c : Collectible) : evolves c c.
Proof.
  unfold evolves. destruct (collected (userData c)); [left|right]; auto.
Qed.

Lemma checkCollectible_evolves (p : Vector3) (c : Collectible)
    (gs : GameState) :
  evolves c (fst (checkCollectible p c gs))
  /\ score (snd (checkCollectible p c gs))
     = (score gs + gainOf c (fst (checkCollectible p c gs)))%Z.
Proof.
  unfold checkCollectible.
  destruct (collected (userData c)) eqn:Ec.
  - simpl. rewrite gainOf_same. split; [apply evolves_refl|lia].
  - destruct (_ && _).
    + destruct (collectItem_spec c gs) as [Hu Hs]. split.
      * right. auto.
      * rewrite Hs. unfold gainOf. now rewrite Hu, Ec.
    + simpl. rewrite gainOf_same. split; [apply evolves_refl|lia].
Qed.

Lemma checkCollectibles_evolves (p : Vector3) (cs : list Collectible)
    (gs : GameState) :
  Forall2 evolves cs (fst (checkCollectibles p cs gs))
  /\ score (snd (checkCollectibles p cs gs))
     = (score gs + totalGain cs (fst (checkCollectibles p cs gs)))%Z.
Proof.
  revert gs. induction cs as [|c cs IH]; intros gs; simpl.
  - split; [constructor|lia].
  - pose proof (checkCollectible_evolves p c gs) as [He Hs].
    destruct (checkCollectible p c gs) as [c' gs1]. simpl in He, Hs.
    specialize (IH gs1) as [IHe IHs].
    destruct (checkCollectibles p cs gs1) as [cs' gs2]. simpl in *.
    split; [now constructor|lia].
Qed.

Lemma score_checkPondVisitsFrom (i : nat) (p : Vector3) (ponds : list Pond)
    (gs : GameState) :
  score (checkPondVisitsFrom i p ponds gs) = score gs.
Proof.
  revert i gs. induction ponds as [|pond rest IH]; intros i gs; simpl.
  - reflexivity.
  - rewrite IH. destruct (_ && _); [|reflexivity].
    now destruct (size _) as [|[|[|n]]].
Qed.

Lemma animateCollectibles_evolves (Math_sin : Q -> Q) (time : Q)
    (cs : list Collectible) :
  Forall2 evolves cs (animateCollectibles Math_sin time cs)
  /\ totalGain cs (animateCollectibles Math_sin time cs) = 0%Z.
Proof.
  induction cs as [|c cs [IHe IHg]]; simpl.
  - split; [constructor|reflexivity].
  - assert (evolves c (animateCollectible Math_sin time c)
            /\ gainOf c (animateCollectible Math_sin time c) = 0%Z) as [He Hg].
    { unfold animateCollectible, evolves, gainOf.
      destruct (collected (userData c)) eqn:Ec.
      - rewrite Ec. auto.
      - simpl. rewrite Ec. auto. }
    split; [now constructor|].
    fold (animateCollectibles Math_sin time cs). lia.
Qed.

Lemma evolves_trans (a b c : Collectible) :
  evolves a b -> evolves b c ->
  evolves a c /\ gainOf a c = (gainOf a b + gainOf b c)%Z.
Proof.
  unfold evolves, gainOf, pointsOf.
  intros [[Ha ->]|[Ha [Hab|Hab]]] [[Hb Hbc]|[Hb [Hbc|Hbc]]];
    try subst c; rewrite ?Hab, ?Hbc in *; simpl in *;
    rewrite ?Ha, ?Hb in *; simpl in *; try congruence;
    (split; [auto|]); try lia.
  all: rewrite ?Hab, ?Ha; simpl; try lia.
Qed.

Lemma evolves_list_trans (l1 l2 l3 : list Collectible) :
  Forall2 evolves l1 l2 -> Forall2 evolves l2 l3 ->
  Forall2 evolves l1 l3
  /\ totalGain l1 l3 = (totalGain l1 l2 + totalGain l2 l3)%Z.
Proof.
  intros H12. revert l3.
  induction H12 as [|a b l1 l2 Hab _ IH]; intros l3 H23.
  - inversion H23. split; [constructor|reflexivity].
  - inversion H23 as [|b' c l2' l3' Hbc H23']; subst.
    destruct (evolves_trans a b c Hab Hbc) as [Hac Hg].
    destruct (IH _ H23') as [IHe IHg].
    split; [now constructor|]. simpl. lia.
Qed.

Lemma gameFrame_evolves (Math_sin : Q -> Q) (ponds : list Pond) (time : Q)
    (camera : Vector3) (cs : list Collectible) (gs : GameState) :
  Forall2 evolves cs (fst (gameFrame Math_sin ponds time camera (cs, gs)))
  /\ score (snd (gameFrame Math_sin ponds time camera (cs, gs)))
     = (score gs
        + totalGain cs (fst (gameFrame Math_sin ponds time camera (cs, gs))))%Z.
Proof.
  unfold gameFrame. simpl.
  destruct (animateCollectibles_evolves Math_sin time cs) as [Ha Hg].
  destruct (_ && _).
  - pose proof (checkCollectibles_evolves camera
                  (animateCollectibles Math_sin time cs) gs) as [He Hs].
    destruct (checkCollectibles _ _ _) as [cs' gs1]. simpl in *.
    destruct (evolves_list_trans _ _ _ Ha He) as [Ht Htg].
    split; [exact Ht|].
    unfold checkPondVisits. rewrite score_checkPondVisitsFrom. lia.
  - simpl. split; [exact Ha|lia].
Qed.

Lemma gameFrames_evolves (Math_sin : Q -> Q) (ponds : list Pond)
    (frames : list (Q * Vector3)) (cs : list Collectible) (gs : GameState) :
  Forall2 evolves cs (fst (gameFrames Math_sin ponds frames (cs, gs)))
  /\ score (snd (gameFrames Math_sin ponds frames (cs, gs)))
     = (score gs
        + totalGain cs (fst (gameFrames Math_sin ponds frames (cs, gs))))%Z.
Proof.
  revert cs gs. induction frames as [|[time camera] frames IH]; intros cs gs.
  - simpl. split.
    + induction cs; constructor; [apply evolves_refl|assumption].
    + assert (totalGain cs cs = 0%Z) as ->; [|lia].
      induction cs as [|c cs IHcs]; simpl; [reflexivity|].
      rewrite gainOf_same. lia.
  - unfold gameFrames. simpl.
    pose proof (gameFrame_evolves Math_sin ponds time camera cs gs) as [He Hs].
    destruct (gameFrame Math_sin ponds time camera (cs, gs)) as [cs1 gs1].
    simpl in He, Hs.
    specialize (IH cs1 gs1). unfold gameFrames in IH. destruct IH as [IHe IHs].
    destruct (evolves_list_trans _ _ _ He IHe) as [Ht Htg].
    split; [exact Ht|]. lia.
Qed.

(** C8: a proximity check against a collected collectible changes neither
    the collectible nor the game state; a check against an uncollected one
    marks it collected and adds exactly its points to the score when the
    player is within reach, and changes nothing otherwise; and over any
    session every collectible evolves
    one way only (a collected one stays as it is) while the score grows by
    exactly the points of the collectibles that went from uncollected to
    collected, each counted once. *)
Theorem collectible_scored_once (Math_sin : Q -> Q) (ponds : list Pond) :
  (forall playerPos c gs,
     collected (userData c) = true ->
     checkCollectible playerPos c gs = (c, gs))
  /\ (forall playerPos c gs,
        collected (userData c) = false ->
        if dist_lt (vec_x playerPos - vec_x (worldPosition c))
                   (vec_z playerPos - vec_z (worldPosition c)) 2.0
           && Qltb (Qabs (vec_y playerPos - vec_y (worldPosition c))) 2.5
        then userData (fst (checkCollectible playerPos c gs))
             = markCollected (userData c)
             /\ score (snd (checkCollectible playerPos c gs))
                = (score gs + pointsOf (userData c))%Z
        else checkCollectible playerPos c gs = (c, gs))
  /\ (forall frames cs gs,
        Forall2 evolves cs (fst (gameFrames Math_sin ponds frames (cs, gs)))
        /\ score (snd (gameFrames Math_sin ponds frames (cs, gs)))
           = (score gs
              + totalGain cs
                  (fst (gameFrames Math_sin ponds frames (cs, gs))))%Z).
Proof.
  split; [|split].
  - intros p c gs Hc. unfold checkCollectible. now rewrite Hc.
  - intros p c gs Hc. unfold checkCollectible. rewrite Hc.
    destruct (_ && _); [apply collectItem_spec|reflexivity].
  - intros frames cs gs. apply gameFrames_evolves.
Qed.

(** ** Win condition *)

Lemma forallb_insert_true (l : list bool) (i : nat) :
  forallb (fun b => b) l = true ->
  forallb (fun b => b) (<[i := true]> l) = true.
Proof.
  revert i. induction l as [|b l IH]; intros i H; [exact H|].
  simpl in H. apply andb_prop in H as [Hb Hl].
  destruct i; simpl.
  - exact Hl.
  - now rewrite Hb, IH.
Qed.

Lemma animateCollectibles_collected (Math_sin : Q -> Q) (time : Q)
    (cs : list Collectible) :
  forallb (fun c => collected (userData c)) cs = true ->
  animateCollectibles Math_sin time cs = cs.
Proof.
  induction cs as [|c cs IH]; simpl; [reflexivity|].
  intros H. apply andb_prop in H as [Hc Hcs].
  unfold animateCollectible at 1. rewrite Hc.
  f_equal. now apply IH.
Qed.

Lemma checkCollectibles_collected (p : Vector3) (cs : list Collectible)
    (gs : GameState) :
  forallb (fun c => collected (userData c)) cs = true ->
  checkCollectibles p cs gs = (cs, gs).
Proof.
  induction cs as [|c cs IH]; simpl; [reflexivity|].
  intros H. apply andb_prop in H as [Hc Hcs].
  unfold checkCollectible. rewrite Hc, (IH Hcs). reflexivity.
Qed.

(** [checkPondVisits] never looks at the win condition: it leaves
    [gameWon] and the win screen alone, whatever it completes. *)
Lemma checkPondVisitsFrom_no_win (i : nat) (p : Vector3) (ponds : list Pond)
    (gs : GameState) :
  gameWon (checkPondVisitsFrom i p ponds gs) = gameWon gs
  /\ winScreens (checkPondVisitsFrom i p ponds gs) = winScreens gs
  /\ gameStarted (checkPondVisitsFrom i p ponds gs) = gameStarted gs
  /\ (allObjectivesCompleted gs = true ->
      allObjectivesCompleted (checkPondVisitsFrom i p ponds gs) = true).
Proof.
  revert i gs. induction ponds as [|pond rest IH]; intros i gs.
  - simpl. auto.
  - cbn [checkPondVisitsFrom].
    match goal with
    | |- context [checkPondVisitsFrom _ _ _ ?g] =>
        destruct (IH (S i) g) as (Hw & Hs & Hg & Ho);
        assert (gameWon g = gameWon gs /\ winScreens g = winScreens gs
                /\ gameStarted g = gameStarted gs
                /\ (allObjectivesCompleted gs = true ->
                    allObjectivesCompleted g = true)) as (Hw' & Hs' & Hg' & Ho')
    end.
    { destruct (_ && _); [|auto].
      destruct (Nat.leb _ _); simpl; repeat split; auto.
      unfold allObjectivesCompleted. simpl. apply forallb_insert_true. }
    rewrite Hw, Hs, Hg. repeat split; auto.
Qed.

Lemma all_collected_frame (Math_sin : Q -> Q) (ponds : list Pond) (time : Q)
    (camera : Vector3) (cs : list Collectible) (gs : GameState) :
  forallb (fun c => collected (userData c)) cs = true ->
  gameWon gs = false ->
  allObjectivesCompleted gs = true ->
  exists gs',
    gameFrame Math_sin ponds time camera (cs, gs) = (cs, gs')
    /\ gameWon gs' = false
    /\ winScreens gs' = winScreens gs
    /\ allObjectivesCompleted gs' = true.
Proof.
  intros Hcs Hw Ho. unfold gameFrame. cbn [fst snd].
  rewrite (animateCollectibles_collected _ _ _ Hcs).
  destruct (gameStarted gs && negb (gameWon gs)).
  - rewrite (checkCollectibles_collected _ _ _ Hcs).
    destruct (checkPondVisitsFrom_no_win 0 camera ponds gs)
      as (Hw' & Hs' & _ & Ho').
    exists (checkPondVisits camera ponds gs). unfold checkPondVisits.
    rewrite Hw', Hs'. auto.
  - exists gs. auto.
Qed.

(** Once every collectible is collected, no frame can set [gameWon]. *)
Lemma all_collected_never_wins (Math_sin : Q -> Q) (ponds : list Pond)
    (frames : list (Q * Vector3)) (cs : list Collectible) (gs : GameState) :
  forallb (fun c => collected (userData c)) cs = true ->
  gameWon gs = false ->
  allObjectivesCompleted gs = true ->
  fst (gameFrames Math_sin ponds frames (cs, gs)) = cs
  /\ gameWon (snd (gameFrames Math_sin ponds frames (cs, gs))) = false
  /\ winScreens (snd (gameFrames Math_sin ponds frames (cs, gs)))
     = winScreens gs
  /\ allObjectivesCompleted (snd (gameFrames Math_sin ponds frames (cs, gs)))
     = true.
Proof.
  intros Hcs. revert gs.
  induction frames as [|[time camera] frames IH]; intros gs Hw Ho.
  - simpl. auto.
  - destruct (all_collected_frame Math_sin ponds time camera cs gs Hcs Hw Ho)
      as (gs' & E & Hw' & Hs' & Ho').
    change (gameFrames Math_sin ponds ((time, camera) :: frames) (cs, gs))
      with (gameFrames Math_sin ponds frames
              (gameFrame Math_sin ponds time camera (cs, gs))).
    rewrite E. rewrite <- Hs'. now apply IH.
Qed.

(** The half of the win rule that the code keeps: every operation of the
    tracker is a [winStep]. *)
Lemma winStep_refl (gs : GameState) : winStep gs gs.
Proof. unfold winStep. auto. Qed.

Lemma winStep_trans (a b c : GameState) :
  winStep a b -> winStep b c -> winStep a c.
Proof.
  unfold winStep. intros (H1 & H2 & H3) (H4 & H5 & H6).
  repeat split; auto.
  intros Hc. destruct (H6 Hc) as [Hb|Hb]; auto.
  destruct (H3 Hb); auto.
Qed.

Lemma winStep_same (gs gs' : GameState) :
  gameWon gs' = gameWon gs -> objectives gs' = objectives gs ->
  winStep gs gs'.
Proof.
  unfold winStep, allObjectivesCompleted. intros -> ->. auto.
Qed.

Lemma winStep_completeObjective (i : nat) (gs : GameState) :
  winStep gs (completeObjective i gs).
Proof.
  unfold winStep, allObjectivesCompleted. simpl.
  repeat split; auto. apply forallb_insert_true.
Qed.

Lemma winStep_checkWinCondition (gs : GameState) :
  winStep gs (checkWinCondition gs).
Proof.
  unfold checkWinCondition.
  destruct (negb (gameWon gs) && allObjectivesCompleted gs) eqn:E;
    [|apply winStep_refl].
  apply andb_prop in E as [_ E].
  unfold winStep, allObjectivesCompleted in *. simpl. auto.
Qed.

Lemma winStep_collectItem (c : Collectible) (gs : GameState) :
  winStep gs (snd (collectItem c gs)).
Proof.
  unfold collectItem. cbn [snd].
  eapply winStep_trans; [|apply winStep_checkWinCondition].
  destruct (isTreasure (userData c)).
  - eapply winStep_trans; [|apply winStep_completeObjective].
    now apply winStep_same.
  - destruct (userType (userData c)); try now apply winStep_same.
    destruct (_ <=? _)%Z; [|now apply winStep_same].
    eapply winStep_trans; [|apply winStep_completeObjective].
    now apply winStep_same.
Qed.

Lemma winStep_checkCollectibles (p : Vector3) (cs : list Collectible)
    (gs : GameState) :
  winStep gs (snd (checkCollectibles p cs gs)).
Proof.
  revert gs. induction cs as [|c cs IH]; intros gs; simpl.
  - apply winStep_refl.
  - assert (winStep gs (snd (checkCollectible p c gs))) as Hc.
    { unfold checkCollectible.
      destruct (collected (userData c)); [apply winStep_refl|].
      destruct (_ && _); [apply winStep_collectItem|apply winStep_refl]. }
    destruct (checkCollectible p c gs) as [c' gs1]. cbn [snd] in Hc.
    specialize (IH gs1).
    destruct (checkCollectibles p cs gs1) as [cs' gs2]. cbn [snd] in *.
    eapply winStep_trans; eassumption.
Qed.

Lemma winStep_checkPondVisits (p : Vector3) (ponds : list Pond)
    (gs : GameState) :
  winStep gs (checkPondVisits p ponds gs).
Proof.
  destruct (checkPondVisitsFrom_no_win 0 p ponds gs) as (Hw & _ & _ & Ho).
  unfold winStep, checkPondVisits. rewrite Hw. auto.
Qed.

(** Over any session [gameWon] is one-way, and it is set only in a state
    where all three objectives are completed. *)
Lemma gameWon_sound (Math_sin : Q -> Q) (ponds : list Pond)
    (frames : list (Q * Vector3)) (cs : list Collectible) (gs : GameState) :
  winStep gs (snd (gameFrames Math_sin ponds frames (cs, gs))).
Proof.
  revert cs gs. induction frames as [|[time camera] frames IH]; intros cs gs.
  - apply winStep_refl.
  - change (gameFrames Math_sin ponds ((time, camera) :: frames) (cs, gs))
      with (gameFrames Math_sin ponds frames
              (gameFrame Math_sin ponds time camera (cs, gs))).
    assert (winStep gs (snd (gameFrame Math_sin ponds time camera (cs, gs))))
      as Hf.
    { unfold gameFrame. cbn [fst snd].
      destruct (_ && _); [|apply winStep_refl].
      pose proof (winStep_checkCollectibles camera
                    (animateCollectibles Math_sin time cs) gs) as Hc.
      destruct (checkCollectibles _ _ _) as [cs' gs1]. cbn [snd] in *.
      eapply winStep_trans; [exact Hc|apply winStep_checkPondVisits]. }
    destruct (gameFrame Math_sin ponds time camera (cs, gs)) as [cs1 gs1].
    cbn [snd] in Hf. eapply winStep_trans; [exact Hf|apply IH].
Qed.

Lemma gameFrames_app (Math_sin : Q -> Q) (ponds : list Pond)
    (frames later : list (Q * Vector3)) (st : list Collectible * GameState) :
  gameFrames Math_sin ponds (frames ++ later) st
  = gameFrames Math_sin ponds later (gameFrames Math_sin ponds frames st).
Proof. unfold gameFrames. apply foldl_app. Qed.

(** The walk of [pondsLastWalk] through the small park ends with every
    collectible collected and every objective completed, but not won. *)
Lemma pondsLastWalk_outcome :
  let st := gameFrames (fun _ => 0) parkPonds pondsLastWalk
              (smallPark, startGame (initialGameState 1)) in
  forallb (fun c => collected (userData c)) (fst st) = true
  /\ gameWon (snd st) = false
  /\ allObjectivesCompleted (snd st) = true
  /\ winScreens (snd st) = 0%nat.
Proof. vm_compute. repeat split. Qed.

(** C3, the failing session: in the small park the player collects the gem
    and the treasure, then discovers the three ponds, the third one last.
    All three objectives are then completed, yet [gameWon] is false and no
    win screen was shown, and this stays so through every later frame. *)
Theorem ponds_last_never_wins (later : list (Q * Vector3)) :
  let st := gameFrames (fun _ => 0) parkPonds (pondsLastWalk ++ later)
              (smallPark, startGame (initialGameState 1)) in
  allObjectivesCompleted (snd st) = true
  /\ gameWon (snd st) = false
  /\ winScreens (snd st) = 0%nat.
Proof.
  cbv zeta. rewrite gameFrames_app.
  destruct pondsLastWalk_outcome as (Hcs & Hw & Ho & Hs).
  destruct (gameFrames (fun _ => 0) parkPonds pondsLastWalk _) as [cs1 gs1].
  cbn [fst snd] in Hcs, Hw, Ho, Hs.
  destruct (all_collected_never_wins (fun _ => 0) parkPonds later cs1 gs1
              Hcs Hw Ho) as (_ & Hw' & Hs' & Ho').
  rewrite Hs'. auto.
Qed.

(** The sibling path: the same walk with the treasure collected last does
    win, because [collectItem] checks the win condition. *)
Lemma treasure_last_wins :
  let walk := [ (0, mkVector3 10 2 10); (1, mkVector3 (-60) 2 40);
                (2, mkVector3 50 2 (-50)); (3, mkVector3 (-30) 2 (-60));
                (4, mkVector3 (-70) 2 (-30)) ] in
  let st := gameFrames (fun _ => 0) parkPonds walk
              (smallPark, startGame (initialGameState 1)) in
  gameWon (snd st) = true /\ winScreens (snd st) = 1%nat.
Proof. vm_compute. split; reflexivity. Qed.

(** ** First-person movement *)

Lemma getGroundHeight_nonneg (objs : list Collidable) (x z y : Q) :
  0 <= getGroundHeight objs x z y.
Proof. apply groundHeightLoop_ge. Qed.

(** C4 as stated fails: in deep water the sink rate while running is not
    above the sink rate while walking. *)
Lemma deep_water_running_sinks_slower :
  ~ (snd (Main.waterPolicy 4 false) < snd (Main.waterPolicy 4 true)).
Proof. vm_compute. discriminate. Qed.

(** C4 (amended): in the deep tier (depth at least 3.0) running doubles
    the resistance factor from 0.2 to 0.4, so the player moves more
    effectively, and lowers the sink rate from 1.2 to 0.8: the sink rate
    while running is strictly below the sink rate while walking. *)
Theorem deep_water_running_tradeoff (depth : Q) :
  3.0 <= depth ->
  Main.waterPolicy depth true = (0.4, 0.8)
  /\ Main.waterPolicy depth false = (0.2, 1.2)
  /\ fst (Main.waterPolicy depth false) < fst (Main.waterPolicy depth true)
  /\ snd (Main.waterPolicy depth true) < snd (Main.waterPolicy depth false).
Proof.
  intros Hd. unfold Main.waterPolicy.
  assert (Qltb depth 1.0 = false) as -> by (apply Qltb_ge; lra).
  assert (Qltb depth 3.0 = false) as -> by (apply Qltb_ge; lra).
  simpl. repeat split; reflexivity.
Qed.

Lemma deep_water_running_tradeoff_witness :
  Main.waterPolicy 4 true = (0.4, 0.8)
  /\ Main.waterPolicy 4 false = (0.2, 1.2)
  /\ fst (Main.waterPolicy 4 false) < fst (Main.waterPolicy 4 true)
  /\ snd (Main.waterPolicy 4 true) < snd (Main.waterPolicy 4 false).
Proof.
  apply (deep_water_running_tradeoff 4). unfold Qle. simpl. lia.
Defined.

(** C10: after every [updateMovement] frame the camera is at or above the
    ground level resolved at the start of the frame (the ground height at
    the old position plus the player height); that ground height is never
    negative, so the camera ends every frame at least the player height
    above zero. *)
Theorem updateMovement_above_ground
    (Math_sqrt : Q -> Q)
    (controls_moveRight controls_moveForward : Main.Camera -> Q -> Vector3)
    (deltaTime : Q) (objs : list Collidable) (ponds : list Pond)
    (st : Main.State) :
  let st' := Main.updateMovement Math_sqrt controls_moveRight
               controls_moveForward deltaTime objs ponds st in
  let p := Main.position (Main.camera st) in
  let groundHeight := getGroundHeight objs (vec_x p) (vec_z p) (vec_y p) in
  Main.currentGroundHeight st' = groundHeight
  /\ 0 <= groundHeight
  /\ groundHeight + Main.PLAYER_HEIGHT
     <= vec_y (Main.position (Main.camera st'))
  /\ Main.PLAYER_HEIGHT <= vec_y (Main.position (Main.camera st')).
Proof.
  intros st' p groundHeight.
  pose proof (getGroundHeight_nonneg objs (vec_x p) (vec_z p) (vec_y p))
    as Hg. fold groundHeight in Hg.
  assert (Main.currentGroundHeight st' = groundHeight
          /\ groundHeight + Main.PLAYER_HEIGHT
             <= vec_y (Main.position (Main.camera st'))) as [H1 H2].
  { subst st'. unfold Main.updateMovement. fold p. fold groundHeight.
    cbv zeta.
    destruct (Main.inWater _ && _);
      [destruct (Main.waterPolicy _ _) as [wr sr]|];
      destruct (negb (Main.checkCollision _ _ _ _));
      match goal with
      | |- context [if Qltb ?a ?b then _ else _] =>
          destruct (Qltb a b) eqn:E
      end;
      simpl; (split; [reflexivity|]);
      try lra; apply Qltb_ge in E; exact E. }
  repeat split; [exact H1|exact Hg|exact H2|lra].
Qed.

(** The [Space] handler of [main.js]: a jump is honoured exactly when
    [canJump] is set, it sets the vertical velocity to [JUMP_VELOCITY], and
    it always clears [canJump]; only the ground contact at the end of
    [updateMovement] sets the flag again, so one jump per ground contact. *)
Lemma onKeyDownSpace_single_jump (st : Main.State) :
  Main.canJump (Main.onKeyDownSpace st) = false
  /\ vec_y (Main.velocity (Main.onKeyDownSpace st))
     = (if Main.canJump st then Main.JUMP_VELOCITY
        else vec_y (Main.velocity st))
  /\ Main.onKeyDownSpace (Main.onKeyDownSpace st) = Main.onKeyDownSpace st.
Proof.
  unfold Main.onKeyDownSpace. simpl.
  destruct (Main.canJump st); auto.
Qed.

(** ** Third-person player *)

Lemma checkWater_respawn (terrainMatrix : Z -> Z -> Q) (s : Player.State) :
  vec_y (Player.position (Player.body s)) < -20 ->
  Player.position (Player.body (Player.checkWater terrainMatrix s))
  = mkVector3 0 (Player.getTerrainHeightAt terrainMatrix 0 0 + 2) 0
  /\ Player.velocity (Player.body (Player.checkWater terrainMatrix s))
     = mkVector3 0 0 0.
Proof.
  intros Hy. unfold Player.checkWater. cbv zeta.
  assert (Qltb (vec_y (Player.position (Player.body s))) (-0.5) = true) as ->
    by (apply Qltb_lt; lra).
  cbn [Player.body Player.position].
  assert (Qltb (vec_y (Player.position (Player.body s))) (-20) = true) as ->
    by (apply Qltb_lt; exact Hy).
  split; reflexivity.
Qed.

(** The spawn point lies over the terrain sample (63, 63) next to the
    centre of the height field, and the terrain clamp leaves a body at the
    spawn point where it is. *)
Lemma getTerrainHeightAt_origin (terrainMatrix : Z -> Z -> Q) :
  Player.getTerrainHeightAt terrainMatrix 0 0 = terrainMatrix 63%Z 63%Z.
Proof. reflexivity. Qed.

Lemma safetyClamp_spawn (terrainMatrix : Z -> Z -> Q) (s : Player.State) :
  Player.position (Player.body s)
  = mkVector3 0 (Player.getTerrainHeightAt terrainMatrix 0 0 + 2) 0 ->
  Player.safetyClamp terrainMatrix s = s.
Proof.
  intros Hp. unfold Player.safetyClamp. cbv zeta. rewrite Hp.
  cbn [vec_x vec_y vec_z].
  match goal with
  | |- (if Qltb ?a ?b then _ else _) = _ =>
      assert (Qltb a b = false) as -> by (apply Qltb_ge; lra)
  end.
  reflexivity.
Qed.

Lemma handleMovement_position (Math_sin Math_cos : Q -> Q) (deltaTime : Q)
    (keys : Player.Keys) (grounded : bool) (s : Player.State) :
  Player.position
    (Player.body
       (fst (Player.handleMovement Math_sin Math_cos deltaTime keys
               grounded s)))
  = Player.position (Player.body s).
Proof.
  unfold Player.handleMovement. cbv zeta.
  destruct (negb (Qeq_bool _ 0));
    destruct (Player.jump keys); destruct (Player.canJump s);
    destruct (Player.isSwimming s
              && Qltb (-1.5) (vec_y (Player.position (Player.body s))));
    destruct ((if grounded then 0 else Player.jumpCount s) <? 3)%nat;
    reflexivity.
Qed.

Lemma getTerrainHeightAt_outside (terrainMatrix : Z -> Z -> Q) (x z : Q) :
  x < -50 \/ 50 < x \/ z < -50 \/ 50 < z ->
  Player.getTerrainHeightAt terrainMatrix x z = -100.
Proof.
  intros H. unfold Player.getTerrainHeightAt. cbv zeta.
  assert (Player.terrainSize / 2 == 50) as E by reflexivity.
  assert (Qltb x (- (Player.terrainSize / 2))
          || Qltb (Player.terrainSize / 2) x
          || Qltb z (- (Player.terrainSize / 2))
          || Qltb (Player.terrainSize / 2) z = true) as ->; [|reflexivity].
  rewrite !orb_true_iff, !Qltb_lt, E. tauto.
Qed.

Lemma checkWater_no_respawn (terrainMatrix : Z -> Z -> Q)
    (s : Player.State) :
  -20 <= vec_y (Player.position (Player.body s)) ->
  Player.position (Player.body (Player.checkWater terrainMatrix s))
  = Player.position (Player.body s).
Proof.
  intros Hy. unfold Player.checkWater. cbv zeta.
  destruct (Qltb _ (-0.5)); cbn [Player.body Player.position];
    (assert (Qltb (vec_y (Player.position (Player.body s))) (-20) = false)
       as -> by now apply Qltb_ge);
    reflexivity.
Qed.

(** A body below the terrain clamp height is lifted to it by [update], and
    stays there when the clamp height is -20 or more. *)
Lemma update_below_clamp (terrainMatrix : Z -> Z -> Q)
    (Math_sin Math_cos : Q -> Q) (deltaTime : Q) (keys : Player.Keys)
    (grounded : bool) (s : Player.State) :
  let p := Player.position (Player.body s) in
  let minHeight :=
    Player.getTerrainHeightAt terrainMatrix (vec_x p) (vec_z p) + 0.8 in
  let s' := fst (Player.update terrainMatrix Math_sin Math_cos deltaTime
                   keys grounded s) in
  vec_y p < minHeight ->
  -20 <= minHeight ->
  Player.position (Player.body s') = mkVector3 (vec_x p) minHeight (vec_z p).
Proof.
  intros p minHeight s' Hlow Hmin. subst s'.
  assert (Player.position (Player.body (Player.safetyClamp terrainMatrix s))
          = mkVector3 (vec_x p) minHeight (vec_z p)) as Hc.
  { unfold Player.safetyClamp. cbv zeta. fold p. fold minHeight.
    assert (Qltb (vec_y p) minHeight = true) as -> by now apply Qltb_lt.
    reflexivity. }
  unfold Player.update. cbv zeta.
  match goal with
  | |- context [Player.handleMovement ?a ?b ?c ?d ?e ?f] =>
      pose proof (handleMovement_position a b c d e f) as Hp;
      destruct (Player.handleMovement a b c d e f) as [s3 r]
  end.
  cbn [fst Player.body] in *. rewrite Hc in Hp.
  rewrite checkWater_no_respawn; [exact Hp|].
  rewrite Hp. exact Hmin.
Qed.

(** C6 as stated fails for [update]: a body that is below -20 over the
    terrain is lifted to the terrain by the clamp that opens [update], and
    the respawn test, which comes after it, does not fire. *)
Lemma update_lifts_instead_of_respawning :
  ~ (forall (terrainMatrix : Z -> Z -> Q) (Math_sin Math_cos : Q -> Q)
            (deltaTime : Q) (keys : Player.Keys) (grounded : bool)
            (s : Player.State),
       vec_y (Player.position (Player.body s)) < -20 ->
       let s' := fst (Player.update terrainMatrix Math_sin Math_cos
                        deltaTime keys grounded s) in
       Player.position (Player.body s')
       = mkVector3 0 (Player.getTerrainHeightAt terrainMatrix 0 0 + 2) 0
       /\ Player.velocity (Player.body s') = mkVector3 0 0 0).
Proof.
  intros H.
  assert (-30 < -20) as Hy by reflexivity.
  destruct (H (fun _ _ => 0) (fun _ => 0) (fun _ => 1) (1 / 60)
              (Player.mkKeys false false false false false false) true
              (Player.mkState
                 (Player.mkBody (mkVector3 10 (-30) 10) (mkVector3 0 (-5) 0)
                                0.9 (mkVector3 0 0 0))
                 (mkVector3 10 (-30) 10) 0 0 true false)
              Hy) as [Hp _].
  vm_compute in Hp. discriminate Hp.
Qed.

(** C6 (amended): the respawn test of [checkWater] puts every body that
    is below -20 at the spawn point above the terrain at the origin and
    zeroes its velocity.  [update] runs it in every frame, after its
    terrain clamp: a body below -20 is put at the spawn point with zero
    velocity when the clamp height, the terrain height under it plus 0.8,
    is below -20 as well, as it is everywhere off the terrain square; over
    terrain with a clamp height of -20 or more, a body below the clamp
    height is lifted to it and stays where it is in the plane.  The
    functions are total, no error is raised. *)
Theorem respawn_after_terrain_clamp
    (terrainMatrix : Z -> Z -> Q) (Math_sin Math_cos : Q -> Q) :
  (forall s,
     vec_y (Player.position (Player.body s)) < -20 ->
     Player.position (Player.body (Player.checkWater terrainMatrix s))
     = mkVector3 0 (Player.getTerrainHeightAt terrainMatrix 0 0 + 2) 0
     /\ Player.velocity (Player.body (Player.checkWater terrainMatrix s))
        = mkVector3 0 0 0)
  /\ (forall deltaTime keys grounded s,
        let p := Player.position (Player.body s) in
        let minHeight :=
          Player.getTerrainHeightAt terrainMatrix (vec_x p) (vec_z p) + 0.8 in
        let s' := fst (Player.update terrainMatrix Math_sin Math_cos
                         deltaTime keys grounded s) in
        (vec_y p < -20 -> minHeight < -20 ->
         Player.position (Player.body s')
         = mkVector3 0 (Player.getTerrainHeightAt terrainMatrix 0 0 + 2) 0
         /\ Player.velocity (Player.body s') = mkVector3 0 0 0)
        /\ (vec_y p < -20 ->
            vec_x p < -50 \/ 50 < vec_x p \/ vec_z p < -50 \/ 50 < vec_z p ->
            Player.position (Player.body s')
            = mkVector3 0 (Player.getTerrainHeightAt terrainMatrix 0 0 + 2) 0
            /\ Player.velocity (Player.body s') = mkVector3 0 0 0)
        /\ (vec_y p < minHeight -> -20 <= minHeight ->
            Player.position (Player.body s')
            = mkVector3 (vec_x p) minHeight (vec_z p))).
Proof.
  split; [apply checkWater_respawn|].
  intros deltaTime keys grounded s p minHeight s'.
  assert (vec_y p < -20 -> minHeight < -20 ->
          Player.position (Player.body s')
          = mkVector3 0 (Player.getTerrainHeightAt terrainMatrix 0 0 + 2) 0
          /\ Player.velocity (Player.body s') = mkVector3 0 0 0) as Hrespawn.
  { intros Hy Hmin. subst s'. unfold Player.update. cbv zeta.
    match goal with
    | |- context [Player.handleMovement ?a ?b ?c ?d ?e ?f] =>
        pose proof (handleMovement_position a b c d e f) as Hp;
        destruct (Player.handleMovement a b c d e f) as [s3 r]
    end.
    cbn [fst Player.body] in *. apply checkWater_respawn. rewrite Hp.
    unfold Player.safetyClamp. cbv zeta. fold p. fold minHeight.
    destruct (Qltb (vec_y p) minHeight); cbn [Player.setBody Player.body
      Player.position vec_y]; [exact Hmin | exact Hy]. }
  split; [exact Hrespawn|]. split.
  - intros Hy Hout. apply Hrespawn; [exact Hy|].
    subst minHeight. rewrite (getTerrainHeightAt_outside _ _ _ Hout).
    reflexivity.
  - apply update_below_clamp.
Qed.

(** A player who walked off the edge of the terrain (x = 60, beyond the
    half size 50) and fell to height -30 is put back at the origin. *)
Lemma respawn_after_terrain_clamp_witness :
  let s := Player.mkState
             (Player.mkBody (mkVector3 60 (-30) 0) (mkVector3 0 (-5) 0) 0.9
                            (mkVector3 0 0 0))
             (mkVector3 60 (-30) 0) 0 0 true false in
  let keys := Player.mkKeys true false false false false false in
  let s' := fst (Player.update (fun _ _ => 0) (fun _ => 0) (fun _ => 1)
                   (1 / 60) keys true s) in
  Player.position (Player.body s') = mkVector3 0 (0 + 2) 0
  /\ Player.velocity (Player.body s') = mkVector3 0 0 0.
Proof.
  intros s keys.
  apply (proj1 (proj2 (respawn_after_terrain_clamp (fun _ _ => 0)
                         (fun _ => 0) (fun _ => 1))
                  (1 / 60) keys true s)).
  - reflexivity.
  - reflexivity.
Defined.

(** What the jump logic of [handleMovement] does, branch by branch.
    [count] is the jump count after the reset of a grounded frame. *)
Lemma handleMovement_jump (Math_sin Math_cos : Q -> Q) (deltaTime : Q)
    (keys : Player.Keys) (grounded : bool) (s : Player.State) :
  let s' := fst (Player.handleMovement Math_sin Math_cos deltaTime keys
                   grounded s) in
  let r := snd (Player.handleMovement Math_sin Math_cos deltaTime keys
                  grounded s) in
  let count := if grounded then 0%nat else Player.jumpCount s in
  let y := vec_y (Player.position (Player.body s)) in
  let near := Player.isSwimming s && Qltb (-1.5) y in
  r = (if Player.jump keys && Player.canJump s
       then if near then Player.SwimJump
            else if (count <? 3)%nat then Player.RegularJump
            else Player.NoJump
       else Player.NoJump)
  /\ Player.canJump s' = negb (Player.jump keys)
  /\ match r with
     | Player.SwimJump =>
         vec_y (Player.velocity (Player.body s')) = 10
         /\ Player.isSwimming s' = false
         /\ Player.jumpCount s' = count
     | Player.RegularJump =>
         vec_y (Player.velocity (Player.body s')) = 8
         /\ Player.isSwimming s' = Player.isSwimming s
         /\ Player.jumpCount s' = S count
     | Player.NoJump =>
         vec_y (Player.velocity (Player.body s'))
         = vec_y (Player.velocity (Player.body s))
         /\ Player.isSwimming s' = Player.isSwimming s
         /\ Player.jumpCount s' = count
     end.
Proof.
  unfold Player.handleMovement. cbv zeta.
  destruct (negb (Qeq_bool _ 0));
    destruct (Player.jump keys); destruct (Player.canJump s) eqn:Ec;
    destruct (Player.isSwimming s && Qltb (-1.5) _);
    destruct ((if grounded then 0 else Player.jumpCount s) <? 3)%nat;
    cbn; rewrite ?Ec; auto.
Qed.

Lemma safetyClamp_jumpCount (terrainMatrix : Z -> Z -> Q) (s : Player.State) :
  Player.jumpCount (Player.safetyClamp terrainMatrix s) = Player.jumpCount s.
Proof.
  unfold Player.safetyClamp. cbv zeta. destruct (Qltb _ _); reflexivity.
Qed.

Lemma checkWater_jumpCount (terrainMatrix : Z -> Z -> Q) (s : Player.State) :
  Player.jumpCount (Player.checkWater terrainMatrix s) = Player.jumpCount s.
Proof.
  unfold Player.checkWater. cbv zeta.
  destruct (Qltb _ (-0.5)); cbn [Player.body Player.position];
    destruct (Qltb _ (-20)); reflexivity.
Qed.

Lemma update_jump (terrainMatrix : Z -> Z -> Q) (Math_sin Math_cos : Q -> Q)
    (deltaTime : Q) (keys : Player.Keys) (grounded : bool)
    (s : Player.State) :
  let s' := fst (Player.update terrainMatrix Math_sin Math_cos deltaTime
                   keys grounded s) in
  let r := snd (Player.update terrainMatrix Math_sin Math_cos deltaTime
                  keys grounded s) in
  let count := if grounded then 0%nat else Player.jumpCount s in
  Player.jumpCount s'
  = match r with Player.RegularJump => S count | _ => count end
  /\ (r = Player.RegularJump -> (count < 3)%nat).
Proof.
  unfold Player.update. cbv zeta.
  match goal with
  | |- context [Player.handleMovement ?a ?b ?c ?d ?e ?f] =>
      pose proof (handleMovement_jump a b c d e f) as H;
      destruct (Player.handleMovement a b c d e f) as [s3 r]
  end.
  cbv zeta in H. cbn [fst snd] in *.
  destruct H as (Hr & _ & Hm).
  cbn [Player.jumpCount Player.canJump Player.isSwimming Player.body] in Hr, Hm.
  rewrite safetyClamp_jumpCount in Hr, Hm.
  rewrite checkWater_jumpCount. split.
  - destruct r; tauto.
  - intros ->. destruct (Player.jump keys && _); [|discriminate].
    destruct (Player.isSwimming _ && _); [discriminate|].
    destruct (_ <? _)%nat eqn:E; [|discriminate].
    now apply Nat.ltb_lt in E.
Qed.

(** The comparisons of [rootInUnit] mean what they stand for over the
    reals: the polynomial has a real root, and one of the two roots lies
    between 0 and 1. *)
Lemma sqrt_le_iff (a b : R) :
  (0 <= a)%R -> (sqrt a <= b <-> 0 <= b /\ a <= b * b)%R.
Proof.
  intros Ha. pose proof (sqrt_pos a) as Hs.
  pose proof (sqrt_sqrt a Ha) as Hq. split.
  - intros H. split; [Lra.lra|]. rewrite <- Hq. Lra.nra.
  - intros [Hb H]. rewrite <- Hq in H. Lra.nra.
Qed.

Lemma le_sqrt_iff (a b : R) :
  (0 <= a)%R -> (b <= sqrt a <-> b <= 0 \/ b * b <= a)%R.
Proof.
  intros Ha. pose proof (sqrt_pos a) as Hs.
  pose proof (sqrt_sqrt a Ha) as Hq. split.
  - intros H. destruct (Rle_dec b 0) as [Hb|Hb]; [now left|right].
    rewrite <- Hq. Lra.nra.
  - intros [Hb|H]; [Lra.lra|]. rewrite <- Hq in H. Lra.nra.
Qed.

Lemma Qle_bool_R (a b : Q) : Qle_bool a b = true <-> (Q2R a <= Q2R b)%R.
Proof.
  rewrite Qle_bool_iff. split; [apply Qle_Rle | apply Rle_Qle].
Qed.

Lemma rootInUnit_sqrt (a b delta : Q) :
  0 < a ->
  Player.rootInUnit a b delta = true
  <-> (0 <= Q2R delta
       /\ (0 <= (- Q2R b - sqrt (Q2R delta)) / (2 * Q2R a) <= 1
           \/ 0 <= (- Q2R b + sqrt (Q2R delta)) / (2 * Q2R a) <= 1))%R.
Proof.
  intros Ha. apply Qlt_Rlt in Ha. rewrite Q2R_zero in Ha.
  unfold Player.rootInUnit. cbv zeta.
  rewrite !andb_true_iff, !orb_true_iff, !andb_true_iff, !orb_true_iff.
  rewrite !Qle_bool_R, !Q2R_mult, !Q2R_plus, !Q2R_mult, Q2R_zero.
  assert (Q2R 2 = 2%R) as -> by (unfold Q2R; simpl; Lra.lra).
  set (A := Q2R a) in *. set (B := Q2R b). set (D := Q2R delta).
  assert (forall x : R, (0 <= x / (2 * A) <= 1 <-> 0 <= x /\ x <= 2 * A)%R)
    as Hdiv.
  { intros x. assert (0 < 2 * A)%R as HA by Lra.lra.
    assert (x = x / (2 * A) * (2 * A))%R as E by (field; Lra.lra).
    split.
    - intros [H0 H1]. rewrite E. split; Lra.nra.
    - intros [H0 H1]. split.
      + apply Rmult_le_reg_r with (2 * A)%R; [exact HA|]. Lra.lra.
      + apply Rmult_le_reg_r with (2 * A)%R; [exact HA|]. Lra.lra. }
  rewrite !Hdiv.
  split.
  - intros [HD H]. split; [exact HD|].
    assert (forall x, (0 <= - B - x <-> x <= - B)%R) as E1
      by (intros; Lra.lra).
    assert (forall x, (- B - x <= 2 * A <-> - (2 * A + B) <= x)%R) as E2
      by (intros; Lra.lra).
    assert (forall x, (0 <= - B + x <-> B <= x)%R) as E3
      by (intros; Lra.lra).
    assert (forall x, (- B + x <= 2 * A <-> x <= 2 * A + B)%R) as E4
      by (intros; Lra.lra).
    rewrite E1, E2, E3, E4.
    rewrite !(sqrt_le_iff D), !(le_sqrt_iff D) by exact HD.
    destruct H as [[[H1 H2] H3]|[H1 H2]]; [left|right]; split.
    + split; [Lra.lra|]. Lra.nra.
    + destruct H3 as [H3|H3]; [left; Lra.lra | right; Lra.nra].
    + exact H1.
    + exact H2.
  - intros [HD H]. split; [exact HD|].
    assert (forall x, (0 <= - B - x <-> x <= - B)%R) as E1
      by (intros; Lra.lra).
    assert (forall x, (- B - x <= 2 * A <-> - (2 * A + B) <= x)%R) as E2
      by (intros; Lra.lra).
    assert (forall x, (0 <= - B + x <-> B <= x)%R) as E3
      by (intros; Lra.lra).
    assert (forall x, (- B + x <= 2 * A <-> x <= 2 * A + B)%R) as E4
      by (intros; Lra.lra).
    rewrite E1, E2, E3, E4 in H.
    rewrite !(sqrt_le_iff D), !(le_sqrt_iff D) in H by exact HD.
    destruct H as [[[H1 H2] H3]|[H1 H2]]; [left|right]; split.
    + split; [Lra.lra|]. Lra.nra.
    + destruct H3 as [H3|H3]; [left; Lra.lra | right; Lra.nra].
    + exact H1.
    + exact H2.
Qed.

(** The ray of [isGrounded] starts at the centre of the player's own
    sphere and is longer than its radius: it leaves the sphere 0.8 below
    the centre, and the cast reports this hit whatever else is there. *)
Lemma isGrounded_own_sphere (othersHit : bool) (b : Player.Body) :
  Player.isGrounded othersHit b = true.
Proof.
  unfold Player.isGrounded. cbv zeta. apply orb_true_iff. left.
  unfold Player.raySphereHit, Player.rootInUnit, Player.sphereRadius.
  cbv zeta. cbn [vec_x vec_y vec_z].
  destruct (Player.position b) as [x y z]. cbn [vec_x vec_y vec_z].
  rewrite !andb_true_iff, !orb_true_iff, !andb_true_iff, !orb_true_iff.
  rewrite !Qle_bool_iff.
  split; [nra|]. right. split; [left; nra|]. split; nra.
Qed.

(** With the answer [isGrounded] gives, [update] honours every fresh
    press of the jump key and counts at most one jump. *)
Lemma update_grounded_jump (terrainMatrix : Z -> Z -> Q)
    (Math_sin Math_cos : Q -> Q) (deltaTime : Q) (keys : Player.Keys)
    (s : Player.State) :
  let res := Player.update terrainMatrix Math_sin Math_cos deltaTime keys
               true s in
  Player.didJump (snd res) = Player.jump keys && Player.canJump s
  /\ (Player.jumpCount (fst res) <= 1)%nat.
Proof.
  cbv zeta.
  pose proof (update_jump terrainMatrix Math_sin Math_cos deltaTime keys
                true s) as [Hc _].
  cbv zeta in Hc. split.
  - unfold Player.update. cbv zeta.
    match goal with
    | |- context [Player.handleMovement ?a ?b ?c ?d ?e ?f] =>
        pose proof (handleMovement_jump a b c d e f) as H;
        destruct (Player.handleMovement a b c d e f) as [s3 r]
    end.
    cbv zeta in H. cbn [fst snd] in *. destruct H as (Hr & _).
    cbn [Player.jumpCount Player.canJump Player.isSwimming Player.body] in Hr.
    subst r.
    assert (Player.canJump (Player.safetyClamp terrainMatrix s)
            = Player.canJump s) as ->.
    { unfold Player.safetyClamp. cbv zeta. destruct (Qltb _ _); reflexivity. }
    destruct (Player.jump keys && Player.canJump s); [|reflexivity].
    destruct (Player.isSwimming _ && _); reflexivity.
  - rewrite Hc. destruct (snd _); lia.
Qed.

(** C5: the limit on consecutive jumps is not enforced.  The ray of
    [isGrounded] starts at the centre of the player's own sphere, so the
    cast reports a hit in every frame and [handleMovement] resets the jump
    count before every jump test: in every frame a fresh press of the jump
    key is honoured, wherever the body is and whatever the count was, and
    the count never exceeds one.  Four presses in mid-air, with no other
    body under the player, give four regular jumps. *)
Theorem jump_limit_never_applies :
  (forall (terrainMatrix : Z -> Z -> Q) (Math_sin Math_cos : Q -> Q)
          (f : Player.Frame) (s : Player.State),
     let res := Player.frameStep terrainMatrix Math_sin Math_cos f s in
     Player.didJump (snd res)
     = Player.jump (Player.frame_keys f) && Player.canJump s
     /\ (Player.jumpCount (fst res) <= 1)%nat)
  /\ (let press := Player.mkFrame (1 / 60)
                     (Player.mkKeys false false false false true false)
                     false (fun b => b) in
      let release := Player.mkFrame (1 / 60)
                       (Player.mkKeys false false false false false false)
                       false (fun b => b) in
      let s := Player.mkState
                 (Player.mkBody (mkVector3 0 5 0) (mkVector3 0 0 0) 0.9
                                (mkVector3 0 0 0))
                 (mkVector3 0 5.1 0) 0 0 true false in
      let res := Player.runFrames (fun _ _ => 0) (fun _ => 0) (fun _ => 1)
                   [press; release; press; release; press; release; press]
                   s in
      snd res = 4%nat /\ Player.jumpCount (fst res) = 1%nat).
Proof.
  split.
  - intros terrainMatrix Math_sin Math_cos f s. cbv zeta.
    unfold Player.frameStep. cbv zeta. rewrite isGrounded_own_sphere.
    apply (update_grounded_jump terrainMatrix Math_sin Math_cos
             (Player.frame_deltaTime f) (Player.frame_keys f)
             (Player.setBody s (Player.frame_physics f (Player.body s)))).
  - vm_compute. split; reflexivity.
Qed.

(** A gem that is already collected: a further check next to it is a
    no-op. *)
Lemma collectible_scored_once_witness :
  let c := mkCollectible (mkVector3 10 1.5 10)
             (mkUserData false gem 100 true (Some 1.5)) in
  let gs := startGame (initialGameState 1) in
  checkCollectible (mkVector3 10 2 10) c gs = (c, gs).
Proof.
  intros c gs.
  apply (proj1 (collectible_scored_once (fun _ => 0) parkPonds)
           (mkVector3 10 2 10) c gs).
  reflexivity.
Defined.

(* ===================================================================== *)
(** * Further properties of the collision queries *)

Lemma existsb_blocksAt_iff (R : Q) (objs : list Collidable) (x z y : Q) :
  existsb (blocksAt R x z y) objs = true
  <-> exists obj, obj ∈ objs /\ intersects R x z obj
                  /\ (height obj = None
                      \/ exists h, height obj = Some h /\ y <= h + 1.5).
Proof.
  rewrite existsb_exists. split.
  - intros (obj & Hin & Hb). exists obj.
    split; [now apply list_elem_of_In|].
    unfold blocksAt in Hb. apply andb_prop in Hb as [Hd Hh].
    split; [exact Hd|].
    destruct (height obj) as [h|]; [|now left].
    right. exists h. split; [reflexivity|].
    apply negb_true_iff, Qltb_ge in Hh. exact Hh.
  - intros (obj & Hin & Hd & Hh). exists obj.
    split; [now apply list_elem_of_In|].
    unfold blocksAt. unfold intersects in Hd. rewrite Hd. simpl.
    destruct Hh as [->|(h & -> & Hy)]; [reflexivity|].
    apply negb_true_iff, Qltb_ge. exact Hy.
Qed.

(** A move to a point outside the world boundary is blocked, whatever the
    registry holds and whatever the player's height. *)
Theorem checkCollision_out_of_bounds
    (R B : Q) (objs : list Collidable) (newX newZ playerY : Q) :
  B < Qabs newX \/ B < Qabs newZ ->
  checkCollision R B objs newX newZ playerY = true.
Proof.
  intros H. rewrite checkCollision_existsb.
  apply orb_true_iff. right. apply orb_true_iff.
  destruct H as [H|H]; [left|right]; now apply Qltb_lt.
Qed.

Lemma checkCollision_out_of_bounds_witness :
  Main.checkCollision [] (-241) 0 2 = true.
Proof.
  apply (checkCollision_out_of_bounds Main.PLAYER_RADIUS Main.WORLD_BOUNDARY
           [] (-241) 0 2).
  left. reflexivity.
Defined.

Lemma checkCollision_blocked_spec
    (R B : Q) (objs : list Collidable) (newX newZ playerY : Q) :
  checkCollision R B objs newX newZ playerY = true
  <-> (B < Qabs newX \/ B < Qabs newZ)
      \/ exists obj, obj ∈ objs /\ intersects R newX newZ obj
                     /\ (height obj = None
                         \/ exists h, height obj = Some h
                                      /\ playerY <= h + 1.5).
Proof.
  rewrite checkCollision_existsb, !orb_true_iff, !Qltb_lt,
    existsb_blocksAt_iff.
  tauto.
Qed.

(** [checkCollision] blocks exactly when the target is outside the
    boundary or some registered obstacle's footprint is hit and that
    obstacle has no height or the player is not more than 1.5 above its
    height. *)
Theorem checkCollision_true_iff
    (R B : Q) (objs : list Collidable) (newX newZ playerY : Q) :
  checkCollision R B objs newX newZ playerY = true
  <-> (B < Qabs newX \/ B < Qabs newZ)
      \/ exists obj, obj ∈ objs /\ intersects R newX newZ obj
                     /\ (height obj = None
                         \/ exists h, height obj = Some h
                                      /\ playerY <= h + 1.5).
Proof. apply checkCollision_blocked_spec. Qed.

(** Descending never frees a move: a target blocked at some height is
    blocked at every lower height. *)
Theorem checkCollision_lower_still_blocked
    (R B : Q) (objs : list Collidable) (newX newZ playerY lowerY : Q) :
  lowerY <= playerY ->
  checkCollision R B objs newX newZ playerY = true ->
  checkCollision R B objs newX newZ lowerY = true.
Proof.
  intros Hle. rewrite !checkCollision_blocked_spec.
  intros [Hb|(obj & Hin & Hd & Hh)]; [now left|].
  right. exists obj. split; [exact Hin|]. split; [exact Hd|].
  destruct Hh as [Hn|(h & Hh & Hy)]; [now left|].
  right. exists h. split; [exact Hh|]. lra.
Qed.

Lemma checkCollision_lower_still_blocked_witness :
  Main.checkCollision
    [mkCollidable (mkVector3 0 0 0) 5 terrace (Some 3)] 1 1 2 = true.
Proof.
  apply (checkCollision_lower_still_blocked Main.PLAYER_RADIUS
           Main.WORLD_BOUNDARY _ 1 1 4 2).
  - unfold Qle. simpl. lia.
  - reflexivity.
Defined.

(** Registration only adds blocks: what was blocked stays blocked after
    [registerCollidable], and after [clearCollidables] only the boundary
    blocks. *)
Theorem checkCollision_registration_monotone
    (R B : Q) (registry : list Collidable) (object : Collidable)
    (newX newZ playerY : Q) :
  (checkCollision R B registry newX newZ playerY = true ->
   checkCollision R B (registerCollidable object registry) newX newZ playerY
   = true)
  /\ (checkCollision R B (clearCollidables registry) newX newZ playerY = true
      <-> B < Qabs newX \/ B < Qabs newZ).
Proof.
  split.
  - rewrite !checkCollision_blocked_spec.
    intros [Hb|(obj & Hin & H)]; [now left|].
    right. exists obj. split; [|exact H].
    unfold registerCollidable. apply elem_of_app. now left.
  - unfold clearCollidables. simpl.
    rewrite orb_true_iff, !Qltb_lt. tauto.
Qed.

Lemma checkCollision_registration_monotone_witness :
  Main.checkCollision
    (registerCollidable (mkCollidable (mkVector3 50 0 50) 1 bench None)
       [mkCollidable (mkVector3 10 0 0) 2 tree None]) 10.5 1 7 = true.
Proof.
  apply (proj1 (checkCollision_registration_monotone Main.PLAYER_RADIUS
                  Main.WORLD_BOUNDARY _ _ 10.5 1 7)).
  reflexivity.
Defined.

Lemma groundHeightLoop_app (l1 l2 : list Collidable) (x z y a : Q) :
  groundHeightLoop (l1 ++ l2) x z y a
  = groundHeightLoop l2 x z y (groundHeightLoop l1 x z y a).
Proof.
  revert a. induction l1 as [|o l1 IH]; intros a; [reflexivity|].
  rewrite <- app_comm_cons, !groundHeightLoop_cons. apply IH.
Qed.

(** The resolved ground height is 0 or the height of a registered platform
    under the player whose landing window contains the current height: a
    resolved platform is never more than 0.5 above the player nor more
    than 3 below. *)
Theorem getGroundHeight_within_window
    (objs : list Collidable) (x z currentY : Q) :
  let g := getGroundHeight objs x z currentY in
  g == 0
  \/ (g - 0.5 <= currentY /\ currentY <= g + 3
      /\ exists obj h, obj ∈ objs /\ height obj = Some h /\ h == g
                       /\ dist_lt (x - vec_x (position obj))
                                  (z - vec_z (position obj)) (radius obj)
                          = true).
Proof.
  cbv zeta. unfold getGroundHeight.
  destruct (groundHeightLoop_spec objs x z currentY 0) as [_ Hatt]; [lra|].
  destruct Hatt as [E|(o & h & Hin & (Hh & Hd & H1 & H2) & E)]; [now left|].
  right. split; [lra|]. split; [lra|].
  exists o, h. auto.
Qed.

(** Registering one more obstacle never lowers the resolved ground
    height. *)
Theorem getGroundHeight_registration_monotone
    (registry : list Collidable) (object : Collidable) (x z currentY : Q) :
  getGroundHeight registry x z currentY
  <= getGroundHeight (registerCollidable object registry) x z currentY.
Proof.
  unfold getGroundHeight, registerCollidable.
  rewrite groundHeightLoop_app, groundHeightLoop_cons. simpl.
  apply landingStep_ge.
Qed.

(* ===================================================================== *)
(** * Further properties of the first-person movement *)

(** With a square root that is never negative and ponds of non-negative
    depth, [getWaterDepth] reports depth 0 outside every pond, and inside
    one a depth between 0 and the full depth of some pond. *)
Theorem getWaterDepth_bounds
    (Math_sqrt : Q -> Q) (ponds : list Pond) (x z : Q) :
  (forall a, 0 <= Math_sqrt a) ->
  (forall pond, pond ∈ ponds -> 0 <= pond_depth pond) ->
  let w := Main.getWaterDepth Math_sqrt ponds x z in
  (Main.inWater w = false -> Main.depth w = 0)
  /\ (Main.inWater w = true ->
      exists pond, pond ∈ ponds
                   /\ 0 <= Main.depth w /\ Main.depth w <= pond_depth pond).
Proof.
  intros Hsqrt. induction ponds as [|pond rest IH]; intros Hd; cbv zeta.
  - simpl. split; [reflexivity|discriminate].
  - cbn [Main.getWaterDepth].
    set (d := Math_sqrt _).
    destruct (Qltb d (pond_size pond)) eqn:E.
    + cbn [Main.inWater Main.depth]. split; [discriminate|]. intros _.
      exists pond. split; [apply list_elem_of_here|].
      apply Qltb_lt in E.
      pose proof (Hsqrt ((x - pond_x pond) * (x - pond_x pond)
                         + (z - pond_z pond) * (z - pond_z pond))) as H0.
      fold d in H0.
      pose proof (Hd pond (list_elem_of_here _ _)) as Hp.
      assert (0 < pond_size pond) as Hs by lra.
      assert (0 <= d / pond_size pond) as Hq1
        by (apply Qle_shift_div_l; [exact Hs|lra]).
      assert (d / pond_size pond <= 1) as Hq2
        by (apply Qle_shift_div_r; [exact Hs|lra]).
      split; nra.
    + destruct IH as [IH1 IH2].
      { intros q Hq. apply Hd. now apply list_elem_of_further. }
      split; [exact IH1|].
      intros Hw. destruct (IH2 Hw) as (q & Hq & Hb).
      exists q. split; [now apply list_elem_of_further|exact Hb].
Qed.

Lemma getWaterDepth_bounds_witness :
  let w := Main.getWaterDepth (fun _ => 0) parkPonds 50 (-50) in
  (Main.inWater w = false -> Main.depth w = 0)
  /\ (Main.inWater w = true ->
      exists pond, pond ∈ parkPonds
                   /\ 0 <= Main.depth w /\ Main.depth w <= pond_depth pond).
Proof.
  apply (getWaterDepth_bounds (fun _ => 0) parkPonds 50 (-50)).
  - intros a. lra.
  - intros pond Hin. unfold parkPonds in Hin.
    repeat (apply elem_of_cons in Hin as [->|Hin]);
      try (unfold Qle; simpl; lia).
    inversion Hin.
Defined.

(** Depth never helps: for a fixed running flag, deeper water never gives
    a larger resistance factor nor a smaller sink rate, and at every depth
    the factor lies in [0.2, 0.9] and the sink rate in [0.2, 1.2]. *)
Theorem waterPolicy_monotone (shallower deeper : Q) (isRunning : bool) :
  shallower <= deeper ->
  fst (Main.waterPolicy deeper isRunning)
  <= fst (Main.waterPolicy shallower isRunning)
  /\ snd (Main.waterPolicy shallower isRunning)
     <= snd (Main.waterPolicy deeper isRunning)
  /\ 0.2 <= fst (Main.waterPolicy deeper isRunning) <= 0.9
  /\ 0.2 <= snd (Main.waterPolicy deeper isRunning) <= 1.2.
Proof.
  intros Hle. unfold Main.waterPolicy.
  destruct (Qltb shallower 1.0) eqn:E1, (Qltb shallower 3.0) eqn:E2,
           (Qltb deeper 1.0) eqn:E3, (Qltb deeper 3.0) eqn:E4;
    rewrite ?Qltb_lt, ?Qltb_ge in *;
    try (exfalso; lra);
    destruct isRunning; cbn [fst snd]; repeat split;
    unfold Qle; simpl; lia.
Qed.

Lemma waterPolicy_monotone_witness :
  fst (Main.waterPolicy 4 false) <= fst (Main.waterPolicy 0.5 false)
  /\ snd (Main.waterPolicy 0.5 false) <= snd (Main.waterPolicy 4 false)
  /\ 0.2 <= fst (Main.waterPolicy 4 false) <= 0.9
  /\ 0.2 <= snd (Main.waterPolicy 4 false) <= 1.2.
Proof.
  apply (waterPolicy_monotone 0.5 4 false). unfold Qle. simpl. lia.
Defined.

(** Jump eligibility comes from ground contact only.  A frame of
    [updateMovement] never clears [canJump]; it sets it only when it snaps
    the camera to the ground level of the frame, and then the vertical
    velocity is zeroed.  A camera that ends the frame strictly above that
    ground level keeps its flag and has had gravity, 49 per second,
    applied to its vertical velocity. *)
Theorem updateMovement_landing
    (Math_sqrt : Q -> Q)
    (controls_moveRight controls_moveForward : Main.Camera -> Q -> Vector3)
    (deltaTime : Q) (objs : list Collidable) (ponds : list Pond)
    (st : Main.State) :
  let st' := Main.updateMovement Math_sqrt controls_moveRight
               controls_moveForward deltaTime objs ponds st in
  let p := Main.position (Main.camera st) in
  let groundLevel :=
    getGroundHeight objs (vec_x p) (vec_z p) (vec_y p) + Main.PLAYER_HEIGHT in
  let y' := vec_y (Main.position (Main.camera st')) in
  let vy' := vec_y (Main.velocity st') in
  (Main.canJump st = true -> Main.canJump st' = true)
  /\ (Main.canJump st' = true ->
      Main.canJump st = true \/ (y' = groundLevel /\ vy' = 0))
  /\ (groundLevel < y' ->
      Main.canJump st' = Main.canJump st
      /\ vy' = vec_y (Main.velocity st) - 9.8 * 5.0 * deltaTime).
Proof.
  cbv zeta. unfold Main.updateMovement. cbv zeta.
  destruct (Main.inWater _ && _);
    [destruct (Main.waterPolicy _ _) as [wr sr]|];
    destruct (negb (Main.checkCollision _ _ _ _));
    match goal with
    | |- context [if Qltb ?a ?b then _ else _] =>
        destruct (Qltb a b) eqn:E
    end;
    cbn [Main.canJump Main.camera Main.position Main.velocity Main.setPositionY
         vec_y];
    (split; [auto|]); (split; [auto|]);
    intros H; try (exfalso; lra); auto.
Qed.

Lemma updateMovement_landing_witness :
  let st := Main.mkState
              (Main.mkCamera (mkVector3 0 10 0) (mkVector3 0 1 0)
                             (mkVector3 0 0 (-1)))
              (mkVector3 0 0 0) (Main.mkKeys false false false false false)
              false 0 in
  let st' := Main.updateMovement (fun _ => 1) (fun c _ => Main.position c)
               (fun c _ => Main.position c) (1 / 10) [] [] st in
  Main.canJump st' = Main.canJump st
  /\ vec_y (Main.velocity st')
     = vec_y (Main.velocity st) - 9.8 * 5.0 * (1 / 10).
Proof.
  intros st.
  apply (proj2 (proj2 (updateMovement_landing (fun _ => 1)
                         (fun c _ => Main.position c)
                         (fun c _ => Main.position c) (1 / 10) [] [] st))).
  vm_compute. reflexivity.
Defined.

Lemma Qabs_damped (v k : Q) :
  0 <= k -> k <= 1 -> Qabs (v - v * k) <= Qabs v.
Proof.
  intros H0 H1.
  assert (v - v * k == v * (1 - k)) as -> by ring.
  rewrite Qabs_Qmult, (Qabs_pos (1 - k)) by lra.
  pose proof (Qabs_nonneg v). nra.
Qed.

(** Friction is dissipative for frames of at most a tenth of a second:
    with no movement key held, a frame of [updateMovement] never increases
    the magnitude of either horizontal velocity component. *)
Theorem updateMovement_friction_dissipates
    (Math_sqrt : Q -> Q)
    (controls_moveRight controls_moveForward : Main.Camera -> Q -> Vector3)
    (deltaTime : Q) (objs : list Collidable) (ponds : list Pond)
    (st : Main.State) :
  0 <= deltaTime -> deltaTime <= 0.1 ->
  Main.moveForward (Main.keys st) = false ->
  Main.moveBackward (Main.keys st) = false ->
  Main.moveLeft (Main.keys st) = false ->
  Main.moveRight (Main.keys st) = false ->
  let st' := Main.updateMovement Math_sqrt controls_moveRight
               controls_moveForward deltaTime objs ponds st in
  Qabs (vec_x (Main.velocity st')) <= Qabs (vec_x (Main.velocity st))
  /\ Qabs (vec_z (Main.velocity st')) <= Qabs (vec_z (Main.velocity st)).
Proof.
  intros H0 H1 Hf Hb Hl Hr. cbv zeta. unfold Main.updateMovement. cbv zeta.
  rewrite Hf, Hb, Hl, Hr. cbn [orb].
  assert (forall v, Qabs (v - v * 10.0 * deltaTime) <= Qabs v) as Hg.
  { intros v.
    assert (v - v * 10.0 * deltaTime == v - v * (10.0 * deltaTime)) as ->
      by ring.
    apply Qabs_damped; lra. }
  assert (forall v, Qabs (v - v * 2.0 * deltaTime) <= Qabs v) as Ha.
  { intros v.
    assert (v - v * 2.0 * deltaTime == v - v * (2.0 * deltaTime)) as ->
      by ring.
    apply Qabs_damped; lra. }
  assert (forall v, Qabs 0 <= Qabs v) as Hz by (intros v; apply Qabs_nonneg).
  destruct (Qle_bool _ _);
    (destruct (Main.inWater _ && _);
      [destruct (Main.waterPolicy _ _) as [wr sr]|]);
    destruct (negb (Main.checkCollision _ _ _ _));
    match goal with
    | |- context [if Qltb ?a ?b then _ else _] => destruct (Qltb a b)
    end;
    cbn [Main.velocity vec_x vec_z]; split; auto.
Qed.

Lemma updateMovement_friction_dissipates_witness :
  let st := Main.mkState
              (Main.mkCamera (mkVector3 0 2 0) (mkVector3 0 1 0)
                             (mkVector3 0 0 (-1)))
              (mkVector3 5 0 5) (Main.mkKeys false false false false false)
              true 0 in
  let st' := Main.updateMovement (fun _ => 1) (fun c _ => Main.position c)
               (fun c _ => Main.position c) (1 / 60) [] [] st in
  Qabs (vec_x (Main.velocity st')) <= Qabs (vec_x (Main.velocity st))
  /\ Qabs (vec_z (Main.velocity st')) <= Qabs (vec_z (Main.velocity st)).
Proof.
  intros st.
  apply (updateMovement_friction_dissipates (fun _ => 1)
           (fun c _ => Main.position c) (fun c _ => Main.position c)
           (1 / 60) [] [] st);
    try reflexivity; unfold Qle; simpl; lia.
Defined.

(* ===================================================================== *)
(** * Day, night, fog and doors *)

Lemma map_const_map {A B C : Type} (b : B) (c : C) (l : list A) :
  map (fun _ => c) (map (fun _ => b) l) = map (fun _ => c) l.
Proof. induction l as [|a l IH]; simpl; [reflexivity|now rewrite IH]. Qed.

(** [toggleDayNight] flips [isDay], keeps the number of lamps and sets
    every lamp to 0 by day and 1.2 by night.  From the first toggle on it
    has period two: three toggles give the same scene as one.  The scene
    built by [init] is not on that cycle when there is a lamp: its lamps
    start at 0.5, so a full day cycle does not bring it back. *)
Theorem toggleDayNight_period_two (s : Scene) (lampPosts : nat) :
  isDay (toggleDayNight s) = negb (isDay s)
  /\ length (lampLights (toggleDayNight s)) = length (lampLights s)
  /\ Forall (fun i => i = if isDay (toggleDayNight s) then 0 else 1.2)
            (lampLights (toggleDayNight s))
  /\ toggleDayNight (toggleDayNight (toggleDayNight s)) = toggleDayNight s
  /\ toggleDayNight (toggleDayNight (initialScene (S lampPosts)))
     <> initialScene (S lampPosts).
Proof.
  split; [|split; [|split; [|split]]].
  - unfold toggleDayNight. now destruct (isDay s).
  - unfold toggleDayNight. destruct (isDay s); simpl; apply length_map.
  - unfold toggleDayNight. destruct (isDay s); simpl;
      apply Forall_forall; intros i Hi;
      apply list_elem_of_In, in_map_iff in Hi as (? & <- & _); reflexivity.
  - unfold toggleDayNight.
    destruct (isDay s); simpl; rewrite !map_const_map;
      destruct (fogEnabled s); reflexivity.
  - unfold toggleDayNight, initialScene. simpl. intros H.
    injection H as H. discriminate.
Qed.

(** [toggleFog] always leaves the fog matching the flags, [toggleDayNight]
    keeps it matching, the two toggles commute, and on a matching scene
    toggling the fog twice changes nothing. *)
Theorem fog_matches_flags (s : Scene) :
  fogConsistent (toggleFog s)
  /\ (fogConsistent s -> fogConsistent (toggleDayNight s))
  /\ toggleFog (toggleDayNight s) = toggleDayNight (toggleFog s)
  /\ (fogConsistent s -> toggleFog (toggleFog s) = s).
Proof.
  destruct s as [d f bg fg sun moon amb lamps].
  unfold fogConsistent, toggleFog, toggleDayNight. simpl.
  split; [|split; [|split]].
  - now destruct f, d.
  - intros ->. now destruct f, d.
  - now destruct f, d.
  - intros ->. now destruct f, d.
Qed.

Lemma fog_matches_flags_witness :
  fogConsistent (toggleDayNight (initialScene 5)).
Proof.
  apply (proj1 (proj2 (fog_matches_flags (initialScene 5)))).
  reflexivity.
Defined.

(** [toggleNearbyDoor] changes at most one door: if no door is within 3
    units of the player nothing changes; otherwise exactly the first such
    door is toggled, its mesh shifted by 2.5 to the open side or back, and
    every other door is left as it is. *)
Theorem toggleNearbyDoor_first_in_reach
    (playerPos : Vector3) (doors : list Door) :
  (Forall (fun d => dist3_lt playerPos (doorPosition d) 3 = false) doors
   /\ toggleNearbyDoor playerPos doors = doors)
  \/ exists before door after,
       doors = before ++ door :: after
       /\ Forall (fun d => dist3_lt playerPos (doorPosition d) 3 = false)
                 before
       /\ dist3_lt playerPos (doorPosition door) 3 = true
       /\ toggleNearbyDoor playerPos doors
          = before ++ toggleDoor door :: after.
Proof.
  induction doors as [|d rest IH]; simpl.
  - left. split; [constructor|reflexivity].
  - destruct (dist3_lt playerPos (doorPosition d) 3) eqn:E.
    + right. exists [], d, rest. simpl. repeat split; auto.
    + destruct IH as [[Hall Heq]|(before & door & after & -> & Hb & Hd & Heq)].
      * left. split; [now constructor|now rewrite Heq].
      * right. exists (d :: before), door, after. simpl.
        repeat split; auto. now rewrite Heq.
Qed.

(** Pressing the door key twice without moving puts every door back:
    the same door is found both times, so its [isOpen] flag is restored
    and its mesh returns to where it was. *)
Theorem toggleNearbyDoor_twice (playerPos : Vector3) (doors : list Door) :
  Forall2 sameDoor doors
          (toggleNearbyDoor playerPos (toggleNearbyDoor playerPos doors)).
Proof.
  assert (forall l : list Door, Forall2 sameDoor l l) as Hrefl.
  { induction l; constructor; [|assumption].
    unfold sameDoor. repeat split; reflexivity. }
  induction doors as [|d rest IH]; simpl; [constructor|].
  destruct (dist3_lt playerPos (doorPosition d) 3) eqn:E; simpl.
  - rewrite E. constructor; [|apply Hrefl].
    unfold sameDoor, toggleDoor. simpl.
    destruct (doorIsOpen d); simpl; repeat split; ring.
  - rewrite E. constructor; [|exact IH].
    unfold sameDoor. repeat split; reflexivity.
Qed.

(* ===================================================================== *)
(** * Further properties of the tracker *)

Lemma checkPondVisitsFrom_cons (i : nat) (p : Vector3) (pond : Pond)
    (rest : list Pond) (gs : GameState) :
  checkPondVisitsFrom i p (pond :: rest) gs
  = checkPondVisitsFrom (S i) p rest
      (if nearPond p pond && negb (bool_decide (i ∈ pondsVisited gs))
       then
         if (3 <=? size (pondsVisited (addPondVisited i gs)))%nat
         then completeObjective 2 (addPondVisited i gs)
         else addPondVisited i gs
       else gs).
Proof. reflexivity. Qed.

(** The head pond's step records the pond exactly when the player is near
    it. *)
Lemma pondStep_visited (i : nat) (p : Vector3) (pond : Pond)
    (gs : GameState) (j : nat) :
  j ∈ pondsVisited
        (if nearPond p pond && negb (bool_decide (i ∈ pondsVisited gs))
         then
           if (3 <=? size (pondsVisited (addPondVisited i gs)))%nat
           then completeObjective 2 (addPondVisited i gs)
           else addPondVisited i gs
         else gs)
  <-> j ∈ pondsVisited gs \/ (j = i /\ nearPond p pond = true).
Proof.
  destruct (nearPond p pond); cbn [andb].
  - destruct (bool_decide (i ∈ pondsVisited gs)) eqn:E; cbn [negb].
    + apply bool_decide_eq_true in E. split; [auto|].
      intros [H|[-> _]]; assumption.
    + destruct (_ <=? _)%nat; simpl; rewrite elem_of_union,
        elem_of_singleton; tauto.
  - split; [auto|]. intros [H|[_ H]]; [assumption|discriminate].
Qed.

Lemma checkPondVisitsFrom_visited (i : nat) (p : Vector3)
    (ponds : list Pond) (gs : GameState) (j : nat) :
  j ∈ pondsVisited (checkPondVisitsFrom i p ponds gs)
  <-> j ∈ pondsVisited gs
      \/ exists pond, (i <= j)%nat /\ ponds !! (j - i)%nat = Some pond
                      /\ nearPond p pond = true.
Proof.
  revert i gs. induction ponds as [|pond rest IH]; intros i gs.
  - simpl. split; [auto|]. intros [H|(pond & _ & H & _)]; [assumption|].
    discriminate.
  - rewrite checkPondVisitsFrom_cons, IH, pondStep_visited. split.
    + intros [[H|[-> Hn]]|(q & Hle & Hq & Hn)].
      * now left.
      * right. exists pond. rewrite Nat.sub_diag. simpl. auto.
      * right. exists q. split; [lia|]. split; [|exact Hn].
        replace (j - i)%nat with (S (j - S i)) by lia. exact Hq.
    + intros [H|(q & Hle & Hq & Hn)]; [now left; left|].
      destruct (decide (j = i)) as [->|Hne].
      * rewrite Nat.sub_diag in Hq. simpl in Hq. injection Hq as <-.
        left. right. auto.
      * right. exists q. split; [lia|]. split; [|exact Hn].
        replace (j - i)%nat with (S (j - S i)) in Hq by lia. exact Hq.
Qed.

(** After [checkPondVisits] the recorded ponds are exactly those recorded
    before together with the index of every pond within the discovery
    radius of the player. *)
Theorem checkPondVisits_visited
    (playerPos : Vector3) (ponds : list Pond) (gs : GameState) (index : nat) :
  index ∈ pondsVisited (checkPondVisits playerPos ponds gs)
  <-> index ∈ pondsVisited gs
      \/ exists pond, ponds !! index = Some pond
                      /\ nearPond playerPos pond = true.
Proof.
  unfold checkPondVisits. rewrite checkPondVisitsFrom_visited.
  rewrite Nat.sub_0_r. split.
  - intros [H|(q & _ & Hq & Hn)]; [now left|]. right. now exists q.
  - intros [H|(q & Hq & Hn)]; [now left|]. right. exists q.
    split; [lia|]. auto.
Qed.

Lemma checkPondVisitsFrom_settled (i : nat) (p : Vector3)
    (ponds : list Pond) (gs : GameState) :
  (forall k pond, ponds !! k = Some pond -> nearPond p pond = true ->
     (i + k)%nat ∈ pondsVisited gs) ->
  checkPondVisitsFrom i p ponds gs = gs.
Proof.
  revert i. induction ponds as [|pond rest IH]; intros i H; [reflexivity|].
  rewrite checkPondVisitsFrom_cons.
  assert (nearPond p pond && negb (bool_decide (i ∈ pondsVisited gs))
          = false) as ->.
  { destruct (nearPond p pond) eqn:E; [|reflexivity]. simpl.
    apply negb_false_iff, bool_decide_eq_true.
    specialize (H 0%nat pond eq_refl E). now rewrite Nat.add_0_r in H. }
  apply IH. intros k q Hq Hn.
  specialize (H (S k) q Hq Hn). now replace (S i + k)%nat with (i + S k)%nat
    by lia.
Qed.

(** A second [checkPondVisits] from the same place changes nothing: a pond
    is discovered once. *)
Theorem checkPondVisits_idempotent
    (playerPos : Vector3) (ponds : list Pond) (gs : GameState) :
  checkPondVisits playerPos ponds (checkPondVisits playerPos ponds gs)
  = checkPondVisits playerPos ponds gs.
Proof.
  unfold checkPondVisits at 1. apply checkPondVisitsFrom_settled.
  intros k pond Hk Hn. simpl.
  unfold checkPondVisits. apply checkPondVisitsFrom_visited.
  right. exists pond. rewrite Nat.sub_0_r. split; [lia|]. auto.
Qed.

Lemma checkPondVisitsFrom_objective (i : nat) (p : Vector3)
    (ponds : list Pond) (gs : GameState) :
  pondsVisited gs ⊆ pondsVisited (checkPondVisitsFrom i p ponds gs)
  /\ (pondsVisited (checkPondVisitsFrom i p ponds gs) = pondsVisited gs ->
      checkPondVisitsFrom i p ponds gs = gs)
  /\ (pondsVisited (checkPondVisitsFrom i p ponds gs) <> pondsVisited gs ->
      objectives (checkPondVisitsFrom i p ponds gs)
      = if (3 <=? size (pondsVisited (checkPondVisitsFrom i p ponds gs)))%nat
        then <[2%nat := true]> (objectives gs)
        else objectives gs).
Proof.
  revert i gs. induction ponds as [|pond rest IH]; intros i gs.
  - simpl. split; [reflexivity|]. split; [reflexivity|]. congruence.
  - rewrite checkPondVisitsFrom_cons.
    destruct (nearPond p pond && negb (bool_decide (i ∈ pondsVisited gs)))
      eqn:Ec; [|apply IH].
    apply andb_prop in Ec as [_ Hni].
    apply negb_true_iff, bool_decide_eq_false in Hni.
    set (A := addPondVisited i gs).
    set (gs1 := if (3 <=? size (pondsVisited A))%nat
                then completeObjective 2 A else A).
    assert (pondsVisited gs1 = {[ i ]} ∪ pondsVisited gs) as Hv1
      by (subst gs1; destruct (_ <=? _)%nat; reflexivity).
    assert (objectives gs1
            = if (3 <=? size (pondsVisited gs1))%nat
              then <[2%nat := true]> (objectives gs) else objectives gs)
      as Ho1.
    { rewrite Hv1. subst gs1 A. cbn [addPondVisited pondsVisited].
      destruct (_ <=? _)%nat; reflexivity. }
    clearbody gs1. clear A.
    destruct (IH (S i) gs1) as (Hsub & Hsame & Hobj).
    set (gs' := checkPondVisitsFrom (S i) p rest gs1) in *.
    clearbody gs'. clear IH.
    assert (i ∈ pondsVisited gs') as Hi.
    { apply Hsub. rewrite Hv1. apply elem_of_union. left.
      now apply elem_of_singleton. }
    split.
    { intros j Hj. apply Hsub. rewrite Hv1. apply elem_of_union. now right. }
    split.
    + intros E. exfalso. apply Hni. now rewrite <- E.
    + intros _.
      destruct (decide (pondsVisited gs' = pondsVisited gs1)) as [E|E].
      * rewrite (Hsame E). rewrite Ho1. reflexivity.
      * rewrite (Hobj E), Ho1.
        destruct (3 <=? size (pondsVisited gs'))%nat eqn:E3.
        -- destruct (_ <=? _)%nat; [|reflexivity].
           apply list_insert_insert_eq.
        -- apply Nat.leb_gt in E3.
           pose proof (subseteq_size _ _ Hsub) as Hsz.
           assert ((3 <=? size (pondsVisited gs1))%nat = false) as ->
             by (apply Nat.leb_gt; lia).
           reflexivity.
Qed.

(** [checkPondVisits] only adds ponds.  If it adds none it changes
    nothing at all; if it adds one, the third objective is marked
    completed exactly when at least three ponds are recorded afterwards,
    and the other objectives are untouched. *)
Theorem checkPondVisits_objective
    (playerPos : Vector3) (ponds : list Pond) (gs : GameState) :
  let gs' := checkPondVisits playerPos ponds gs in
  pondsVisited gs ⊆ pondsVisited gs'
  /\ (pondsVisited gs' = pondsVisited gs -> gs' = gs)
  /\ (pondsVisited gs' <> pondsVisited gs ->
      objectives gs'
      = if (3 <=? size (pondsVisited gs'))%nat
        then <[2%nat := true]> (objectives gs)
        else objectives gs).
Proof. apply checkPondVisitsFrom_objective. Qed.

Lemma checkPondVisits_objective_witness :
  let gs := addPondVisited 1 (addPondVisited 0
              (startGame (initialGameState 1))) in
  objectives (checkPondVisits (mkVector3 (-30) 2 (-60)) parkPonds gs)
  = [false; false; true].
Proof.
  intros gs.
  destruct (checkPondVisits_objective (mkVector3 (-30) 2 (-60)) parkPonds gs)
    as (_ & _ & H).
  cbv zeta in H. rewrite H.
  - vm_compute. reflexivity.
  - intros E.
    assert (2%nat ∈ pondsVisited gs) as Hin.
    { rewrite <- E. vm_compute. reflexivity. }
    revert Hin. vm_compute. discriminate.
Defined.

Lemma winShown_refl (gs : GameState) : winShown gs gs.
Proof.
  unfold winShown. split; [auto|]. destruct (gameWon gs); simpl; lia.
Qed.

Lemma winShown_trans (a b c : GameState) :
  winShown a b -> winShown b c -> winShown a c.
Proof.
  unfold winShown. intros [H1 H2] [H3 H4]. split; [auto|].
  rewrite H4, H2.
  destruct (gameWon a), (gameWon b), (gameWon c); simpl; try lia;
    (specialize (H1 eq_refl) || specialize (H3 eq_refl)); discriminate.
Qed.

Lemma winShown_same (gs gs' : GameState) :
  gameWon gs' = gameWon gs -> winScreens gs' = winScreens gs ->
  winShown gs gs'.
Proof.
  unfold winShown. intros -> ->. split; [auto|].
  destruct (gameWon gs); simpl; lia.
Qed.

Lemma winShown_checkWinCondition (gs : GameState) :
  winShown gs (checkWinCondition gs).
Proof.
  unfold checkWinCondition.
  destruct (negb (gameWon gs) && allObjectivesCompleted gs) eqn:E;
    [|apply winShown_refl].
  apply andb_prop in E as [E _]. apply negb_true_iff in E.
  unfold winShown. simpl. rewrite E. simpl. split; [auto|lia].
Qed.

Lemma winShown_collectItem (c : Collectible) (gs : GameState) :
  winShown gs (snd (collectItem c gs)).
Proof.
  unfold collectItem. cbn [snd].
  eapply winShown_trans; [|apply winShown_checkWinCondition].
  destruct (isTreasure (userData c)); [now apply winShown_same|].
  destruct (userType (userData c)); try now apply winShown_same.
  destruct (_ <=? _)%Z; now apply winShown_same.
Qed.

Lemma winShown_checkCollectibles (p : Vector3) (cs : list Collectible)
    (gs : GameState) :
  winShown gs (snd (checkCollectibles p cs gs)).
Proof.
  revert gs. induction cs as [|c cs IH]; intros gs; simpl.
  - apply winShown_refl.
  - assert (winShown gs (snd (checkCollectible p c gs))) as Hc.
    { unfold checkCollectible.
      destruct (collected (userData c)); [apply winShown_refl|].
      destruct (_ && _); [apply winShown_collectItem|apply winShown_refl]. }
    destruct (checkCollectible p c gs) as [c' gs1]. cbn [snd] in Hc.
    specialize (IH gs1).
    destruct (checkCollectibles p cs gs1) as [cs' gs2]. cbn [snd] in *.
    eapply winShown_trans; eassumption.
Qed.

Lemma winShown_gameFrame (Math_sin : Q -> Q) (ponds : list Pond) (time : Q)
    (camera : Vector3) (cs : list Collectible) (gs : GameState) :
  winShown gs (snd (gameFrame Math_sin ponds time camera (cs, gs))).
Proof.
  unfold gameFrame. cbn [fst snd].
  destruct (_ && _); [|apply winShown_refl].
  pose proof (winShown_checkCollectibles camera
                (animateCollectibles Math_sin time cs) gs) as Hc.
  destruct (checkCollectibles _ _ _) as [cs' gs1]. cbn [snd] in *.
  eapply winShown_trans; [exact Hc|].
  destruct (checkPondVisitsFrom_no_win 0 camera ponds gs1) as (Hw & Hs & _).
  now apply winShown_same.
Qed.

(** The win screen is shown at most once.  Over any session the win flag
    is never cleared, and [showGameWinScreen] has been called once more
    exactly if the flag went from unset to set. *)
Theorem win_screen_shown_once (Math_sin : Q -> Q) (ponds : list Pond)
    (frames : list (Q * Vector3)) (cs : list Collectible) (gs : GameState) :
  let gs' := snd (gameFrames Math_sin ponds frames (cs, gs)) in
  (gameWon gs = true -> gameWon gs' = true)
  /\ winScreens gs'
     = (winScreens gs
        + (if negb (gameWon gs) && gameWon gs' then 1 else 0))%nat.
Proof.
  cbv zeta.
  change (winShown gs (snd (gameFrames Math_sin ponds frames (cs, gs)))).
  revert cs gs. induction frames as [|[time camera] frames IH]; intros cs gs.
  - apply winShown_refl.
  - change (gameFrames Math_sin ponds ((time, camera) :: frames) (cs, gs))
      with (gameFrames Math_sin ponds frames
              (gameFrame Math_sin ponds time camera (cs, gs))).
    pose proof (winShown_gameFrame Math_sin ponds time camera cs gs) as Hf.
    destruct (gameFrame Math_sin ponds time camera (cs, gs)) as [cs1 gs1].
    cbn [snd] in Hf. eapply winShown_trans; [exact Hf|apply IH].
Qed.

Lemma win_screen_shown_once_witness :
  let gs := checkWinCondition
              (completeObjective 2 (completeObjective 1
                 (completeObjective 0 (startGame (initialGameState 1))))) in
  gameWon (snd (gameFrames (fun _ => 0) parkPonds pondsLastWalk
                  (smallPark, gs))) = true.
Proof.
  intros gs.
  apply (proj1 (win_screen_shown_once (fun _ => 0) parkPonds pondsLastWalk
                  smallPark gs)).
  reflexivity.
Defined.

Lemma animateCollectibles_userData (Math_sin : Q -> Q) (time : Q)
    (cs : list Collectible) :
  Forall2 (fun c c' => userData c' = userData c) cs
          (animateCollectibles Math_sin time cs).
Proof.
  induction cs as [|c cs IH]; simpl; constructor; [|exact IH].
  unfold animateCollectible. now destruct (collected (userData c)).
Qed.

Lemma userData_list_trans (l1 l2 l3 : list Collectible) :
  Forall2 (fun c c' => userData c' = userData c) l1 l2 ->
  Forall2 (fun c c' => userData c' = userData c) l2 l3 ->
  Forall2 (fun c c' => userData c' = userData c) l1 l3.
Proof.
  intros H12. revert l3.
  induction H12 as [|a b l1 l2 Hab _ IH]; intros l3 H23.
  - inversion H23. constructor.
  - inversion H23 as [|b' c l2' l3' Hbc H23']; subst.
    constructor; [congruence|now apply IH].
Qed.

Lemma gameFrame_won (Math_sin : Q -> Q) (ponds : list Pond) (time : Q)
    (camera : Vector3) (cs : list Collectible) (gs : GameState) :
  gameWon gs = true ->
  gameFrame Math_sin ponds time camera (cs, gs)
  = (animateCollectibles Math_sin time cs, gs).
Proof.
  intros Hw. unfold gameFrame. cbn [fst snd].
  now rewrite Hw, andb_false_r.
Qed.

(** Once the game is won the tracker is frozen: through every later frame
    the game state stays exactly as it is and no collectible is collected
    (the collectibles only bob). *)
Theorem won_game_is_frozen (Math_sin : Q -> Q) (ponds : list Pond)
    (frames : list (Q * Vector3)) (cs : list Collectible) (gs : GameState) :
  gameWon gs = true ->
  snd (gameFrames Math_sin ponds frames (cs, gs)) = gs
  /\ Forall2 (fun c c' => userData c' = userData c) cs
             (fst (gameFrames Math_sin ponds frames (cs, gs))).
Proof.
  intros Hw. revert cs.
  induction frames as [|[time camera] frames IH]; intros cs.
  - simpl. split; [reflexivity|].
    induction cs; constructor; auto.
  - change (gameFrames Math_sin ponds ((time, camera) :: frames) (cs, gs))
      with (gameFrames Math_sin ponds frames
              (gameFrame Math_sin ponds time camera (cs, gs))).
    rewrite (gameFrame_won _ _ _ _ _ _ Hw).
    destruct (IH (animateCollectibles Math_sin time cs)) as [IH1 IH2].
    split; [exact IH1|].
    eapply userData_list_trans; [|exact IH2].
    apply animateCollectibles_userData.
Qed.

Lemma won_game_is_frozen_witness :
  let gs := checkWinCondition
              (completeObjective 2 (completeObjective 1
                 (completeObjective 0 (startGame (initialGameState 1))))) in
  snd (gameFrames (fun _ => 0) parkPonds pondsLastWalk (smallPark, gs)) = gs.
Proof.
  intros gs.
  apply (proj1 (won_game_is_frozen (fun _ => 0) parkPonds pondsLastWalk
                  smallPark gs eq_refl)).
Defined.

Lemma gemsCollected_checkWinCondition (gs : GameState) :
  gemsCollected (checkWinCondition gs) = gemsCollected gs.
Proof. unfold checkWinCondition. now destruct (_ && _). Qed.

Lemma collectItem_gems (c : Collectible) (gs : GameState) :
  gemsCollected (snd (collectItem c gs))
  = (gemsCollected gs + gemCount (userData c))%Z.
Proof.
  unfold collectItem, gemCount. cbn [snd].
  rewrite gemsCollected_checkWinCondition.
  destruct (isTreasure (userData c)); [simpl; lia|].
  destruct (userType (userData c)); simpl; try lia.
  destruct (_ <=? _)%Z; simpl; lia.
Qed.

Lemma checkCollectibles_gems (p : Vector3) (cs : list Collectible)
    (gs : GameState) :
  gemsCollected (snd (checkCollectibles p cs gs))
  = (gemsCollected gs + totalGemGain cs (fst (checkCollectibles p cs gs)))%Z.
Proof.
  revert gs. induction cs as [|c cs IH]; intros gs; simpl; [lia|].
  assert (gemsCollected (snd (checkCollectible p c gs))
          = (gemsCollected gs + gemGainOf c (fst (checkCollectible p c gs)))%Z)
    as Hc.
  { unfold checkCollectible, gemGainOf.
    destruct (collected (userData c)) eqn:Ec;
      [simpl; rewrite ?Ec; simpl; lia|].
    destruct (_ && _).
    - rewrite collectItem_gems.
      rewrite (proj1 (collectItem_spec c gs)). simpl. reflexivity.
    - simpl. rewrite ?Ec. simpl. lia. }
  destruct (checkCollectible p c gs) as [c' gs1]. cbn [fst snd] in Hc.
  specialize (IH gs1).
  destruct (checkCollectibles p cs gs1) as [cs' gs2]. cbn [fst snd] in *.
  lia.
Qed.

Lemma gemsCollected_checkPondVisitsFrom (i : nat) (p : Vector3)
    (ponds : list Pond) (gs : GameState) :
  gemsCollected (checkPondVisitsFrom i p ponds gs) = gemsCollected gs.
Proof.
  revert i gs. induction ponds as [|pond rest IH]; intros i gs;
    [reflexivity|].
  rewrite checkPondVisitsFrom_cons, IH.
  destruct (_ && _); [|reflexivity].
  now destruct (_ <=? _)%nat.
Qed.

Lemma evolves_gem_trans (a b c : Collectible) :
  evolves a b -> evolves b c ->
  gemGainOf a c = (gemGainOf a b + gemGainOf b c)%Z.
Proof.
  unfold evolves, gemGainOf, gemCount.
  intros [[Ha ->]|[Ha [Hab|Hab]]] [[Hb Hbc]|[Hb [Hbc|Hbc]]];
    try subst c; rewrite ?Hab, ?Hbc in *; simpl in *;
    rewrite ?Ha, ?Hb in *; simpl in *; try congruence; try lia.
  all: rewrite ?Hab, ?Ha; simpl; try lia.
Qed.

Lemma evolves_list_gem_trans (l1 l2 l3 : list Collectible) :
  Forall2 evolves l1 l2 -> Forall2 evolves l2 l3 ->
  totalGemGain l1 l3 = (totalGemGain l1 l2 + totalGemGain l2 l3)%Z.
Proof.
  intros H12. revert l3.
  induction H12 as [|a b l1 l2 Hab _ IH]; intros l3 H23.
  - inversion H23. reflexivity.
  - inversion H23 as [|b' c l2' l3' Hbc H23']; subst. simpl.
    rewrite (evolves_gem_trans a b c Hab Hbc), (IH _ H23'). lia.
Qed.

Lemma animateCollectibles_gems (Math_sin : Q -> Q) (time : Q)
    (cs : list Collectible) :
  totalGemGain cs (animateCollectibles Math_sin time cs) = 0%Z.
Proof.
  induction cs as [|c cs IH]; simpl; [reflexivity|].
  fold (animateCollectibles Math_sin time cs). rewrite IH.
  unfold gemGainOf, animateCollectible.
  destruct (collected (userData c)) eqn:Ec; simpl; rewrite ?Ec; reflexivity.
Qed.

Lemma gameFrame_gems (Math_sin : Q -> Q) (ponds : list Pond) (time : Q)
    (camera : Vector3) (cs : list Collectible) (gs : GameState) :
  gemsCollected (snd (gameFrame Math_sin ponds time camera (cs, gs)))
  = (gemsCollected gs
     + totalGemGain cs
         (fst (gameFrame Math_sin ponds time camera (cs, gs))))%Z.
Proof.
  unfold gameFrame. cbn [fst snd].
  destruct (animateCollectibles_evolves Math_sin time cs) as [Ha _].
  pose proof (animateCollectibles_gems Math_sin time cs) as Hg.
  destruct (_ && _).
  - pose proof (checkCollectibles_evolves camera
                  (animateCollectibles Math_sin time cs) gs) as [He _].
    pose proof (checkCollectibles_gems camera
                  (animateCollectibles Math_sin time cs) gs) as Hs.
    destruct (checkCollectibles _ _ _) as [cs' gs1]. cbn [fst snd] in *.
    unfold checkPondVisits. rewrite gemsCollected_checkPondVisitsFrom.
    rewrite (evolves_list_gem_trans _ _ _ Ha He). lia.
  - cbn [fst snd]. lia.
Qed.

(** The gem counter counts gems and nothing else: over any session
    [gemsCollected] grows by exactly the number of collectibles of type
    [gem] that went from uncollected to collected; coins, building
    treasures and the treasure chest never count. *)
Theorem gems_counted_once (Math_sin : Q -> Q) (ponds : list Pond)
    (frames : list (Q * Vector3)) (cs : list Collectible) (gs : GameState) :
  gemsCollected (snd (gameFrames Math_sin ponds frames (cs, gs)))
  = (gemsCollected gs
     + totalGemGain cs (fst (gameFrames Math_sin ponds frames (cs, gs))))%Z.
Proof.
  revert cs gs. induction frames as [|[time camera] frames IH]; intros cs gs.
  - simpl. assert (totalGemGain cs cs = 0%Z) as ->; [|lia].
    induction cs as [|c cs IHcs]; simpl; [reflexivity|].
    rewrite IHcs. unfold gemGainOf.
    destruct (collected (userData c)); reflexivity.
  - change (gameFrames Math_sin ponds ((time, camera) :: frames) (cs, gs))
      with (gameFrames Math_sin ponds frames
              (gameFrame Math_sin ponds time camera (cs, gs))).
    pose proof (gameFrame_gems Math_sin ponds time camera cs gs) as Hs.
    pose proof (gameFrame_evolves Math_sin ponds time camera cs gs) as [He _].
    destruct (gameFrame Math_sin ponds time camera (cs, gs)) as [cs1 gs1].
    cbn [fst snd] in Hs, He.
    pose proof (gameFrames_evolves Math_sin ponds frames cs1 gs1) as [IHe _].
    rewrite (IH cs1 gs1), (evolves_list_gem_trans _ _ _ He IHe). lia.
Qed.

(* ===================================================================== *)
(** * The game-state module *)

(** [checkWinCondition] of [state.js] reports a win at most once: it
    returns true only while all objectives are completed and the game is
    not yet won, it then sets [gameWon], and a second call right after any
    call returns false and changes nothing. *)
Theorem state_checkWinCondition_once (gs : GameState) :
  let gs1 := fst (StateJs.checkWinCondition gs) in
  let won := snd (StateJs.checkWinCondition gs) in
  (won = true ->
   gameWon gs = false /\ allObjectivesCompleted gs = true
   /\ gameWon gs1 = true)
  /\ (won = false -> gs1 = gs)
  /\ StateJs.checkWinCondition gs1 = (gs1, false).
Proof.
  cbv zeta. unfold StateJs.checkWinCondition.
  destruct (allObjectivesCompleted gs && negb (gameWon gs)) eqn:E.
  - cbn [fst snd]. apply andb_prop in E as [Ho Hw].
    apply negb_true_iff in Hw.
    split; [auto|]. split; [discriminate|].
    unfold allObjectivesCompleted in *. simpl. rewrite Ho. reflexivity.
  - cbn [fst snd]. split; [discriminate|]. split; [reflexivity|].
    now rewrite E.
Qed.

Lemma state_checkWinCondition_once_witness :
  let gs := completeObjective 2 (completeObjective 1
              (completeObjective 0 (startGame (initialGameState 1)))) in
  gameWon gs = false /\ allObjectivesCompleted gs = true
  /\ gameWon (fst (StateJs.checkWinCondition gs)) = true.
Proof.
  intros gs.
  apply (proj1 (state_checkWinCondition_once gs)).
  reflexivity.
Defined.

Lemma visitPond_eq (i : nat) (gs : GameState) :
  StateJs.visitPond i gs
  = mkGameState (score gs) (gemsCollected gs) (totalGems gs)
      (gameStarted gs) (gameWon gs)
      (if (3 <=? size ({[ i ]} ∪ pondsVisited gs))%nat
       then <[2%nat := true]> (objectives gs) else objectives gs)
      ({[ i ]} ∪ pondsVisited gs) (treasureFound gs) (winScreens gs).
Proof.
  unfold StateJs.visitPond. cbn [addPondVisited pondsVisited].
  destruct (_ <=? _)%nat; reflexivity.
Qed.

(** [visitPond] records a pond in a set: visiting the same pond again
    changes nothing, and the order of two visits is irrelevant, for the
    set and for the third objective. *)
Theorem visitPond_idempotent_commutative (i j : nat) (gs : GameState) :
  StateJs.visitPond i (StateJs.visitPond i gs) = StateJs.visitPond i gs
  /\ StateJs.visitPond i (StateJs.visitPond j gs)
     = StateJs.visitPond j (StateJs.visitPond i gs).
Proof.
  rewrite !visitPond_eq. cbn [score gemsCollected totalGems gameStarted
    gameWon objectives pondsVisited treasureFound winScreens].
  assert ({[ i ]} ∪ ({[ i ]} ∪ pondsVisited gs) = {[ i ]} ∪ pondsVisited gs)
    as Hii by (apply set_eq; intros k; rewrite !elem_of_union; tauto).
  assert ({[ i ]} ∪ ({[ j ]} ∪ pondsVisited gs)
          = {[ j ]} ∪ ({[ i ]} ∪ pondsVisited gs)) as Hij
    by (apply set_eq; intros k; rewrite !elem_of_union; tauto).
  split.
  - rewrite Hii. f_equal.
    destruct (_ <=? _)%nat; [|reflexivity]. apply list_insert_insert_eq.
  - rewrite Hij. f_equal.
    assert (size ({[ i ]} ∪ pondsVisited gs)
            <= size ({[ j ]} ∪ ({[ i ]} ∪ pondsVisited gs)))%nat as Hi
      by (apply subseteq_size; intros k; rewrite !elem_of_union; tauto).
    assert (size ({[ j ]} ∪ pondsVisited gs)
            <= size ({[ j ]} ∪ ({[ i ]} ∪ pondsVisited gs)))%nat as Hj
      by (apply subseteq_size; intros k; rewrite !elem_of_union; tauto).
    destruct (3 <=? size ({[ j ]} ∪ ({[ i ]} ∪ pondsVisited gs)))%nat eqn:E.
    + destruct (3 <=? size ({[ j ]} ∪ pondsVisited gs))%nat,
               (3 <=? size ({[ i ]} ∪ pondsVisited gs))%nat;
        rewrite ?list_insert_insert_eq; reflexivity.
    + apply Nat.leb_gt in E.
      assert ((3 <=? size ({[ j ]} ∪ pondsVisited gs))%nat = false) as ->
        by (apply Nat.leb_gt; lia).
      assert ((3 <=? size ({[ i ]} ∪ pondsVisited gs))%nat = false) as ->
        by (apply Nat.leb_gt; lia).
      reflexivity.
Qed.

(* ===================================================================== *)
(** * The collectibles manager *)

Lemma remaining_insert (its : list Collectibles.Item) (i : nat)
    (item : Collectibles.Item) :
  its !! i = Some item ->
  Collectibles.active item = true ->
  Collectibles.remaining
    (<[i := Collectibles.mkItem (Collectibles.value item)
              (Collectibles.type item) false (Collectibles.body item)]> its)
  = (Collectibles.remaining its - Collectibles.value item)%Z.
Proof.
  revert i. induction its as [|it its IH]; intros i Hi Ha; [discriminate|].
  destruct i as [|i]; simpl in *.
  - injection Hi as ->. rewrite Ha. lia.
  - rewrite (IH i Hi Ha). destruct (Collectibles.active it); lia.
Qed.

(** Collecting conserves value: after [collect] the score plus the value
    of the items still active is what it was before, and collecting the
    same item again, as a second collision event does, changes nothing. *)
Theorem collect_conserves_value (i : nat) (m : Collectibles.Manager) :
  (Collectibles.score (Collectibles.collect i m)
   + Collectibles.remaining (Collectibles.items (Collectibles.collect i m)))%Z
  = (Collectibles.score m + Collectibles.remaining (Collectibles.items m))%Z
  /\ Collectibles.collect i (Collectibles.collect i m)
     = Collectibles.collect i m.
Proof.
  unfold Collectibles.collect.
  destruct (Collectibles.items m !! i) as [item|] eqn:Hi.
  - destruct (Collectibles.active item) eqn:Ha; simpl.
    + split.
      * rewrite (remaining_insert _ _ _ Hi Ha). lia.
      * rewrite list_lookup_insert_eq by (eapply lookup_lt_Some; eauto).
        reflexivity.
    + rewrite Hi, Ha. simpl. split; reflexivity.
  - rewrite Hi. split; reflexivity.
Qed.

Lemma removeBodies_elem (queue : list nat) (bodies : gset nat) (b : nat) :
  b ∈ foldl (fun bodies b => bodies ∖ {[ b ]}) bodies queue
  <-> b ∈ bodies /\ b ∉ queue.
Proof.
  revert bodies. induction queue as [|q queue IH]; intros bodies; simpl.
  - split; [|tauto]. intros H. split; [exact H|]. intros Hin. inversion Hin.
  - rewrite IH, elem_of_difference, elem_of_singleton, not_elem_of_cons.
    tauto.
Qed.

(** The removal pass of [update] empties the queue and takes exactly the
    queued bodies out of the physics world; so once an active item has
    been collected, the next [update] removes its trigger body. *)
Theorem update_removes_collected (i : nat) (m : Collectibles.Manager) :
  Collectibles.itemsToRemove (Collectibles.update m) = []
  /\ (forall b, b ∈ Collectibles.worldBodies (Collectibles.update m)
                <-> b ∈ Collectibles.worldBodies m
                    /\ b ∉ Collectibles.itemsToRemove m)
  /\ (forall item,
        Collectibles.items m !! i = Some item ->
        Collectibles.active item = true ->
        Collectibles.body item
        ∉ Collectibles.worldBodies
            (Collectibles.update (Collectibles.collect i m))).
Proof.
  split; [reflexivity|]. split.
  - intros b. unfold Collectibles.update. simpl. apply removeBodies_elem.
  - intros item Hi Ha Hin.
    unfold Collectibles.update in Hin. simpl in Hin.
    apply removeBodies_elem in Hin as [_ Hq]. apply Hq.
    unfold Collectibles.collect. rewrite Hi, Ha. simpl.
    apply elem_of_app. right. apply list_elem_of_here.
Qed.

Lemma update_removes_collected_witness :
  let m := Collectibles.mkManager
             [Collectibles.mkItem 10 Collectibles.gem true 7;
              Collectibles.mkItem 50 Collectibles.gold true 8]
             [] 0 ({[ 7%nat ]} ∪ {[ 8%nat ]}) in
  8%nat ∉ Collectibles.worldBodies
            (Collectibles.update (Collectibles.collect 1 m)).
Proof.
  intros m.
  apply (proj2 (proj2 (update_removes_collected 1 m))
           (Collectibles.mkItem 50 Collectibles.gold true 8));
    reflexivity.
Defined.

(* ===================================================================== *)
(** * Further properties of the third-person player *)

Lemma safetyClamp_above (terrainMatrix : Z -> Z -> Q) (s : Player.State) :
  let p := Player.position (Player.body (Player.safetyClamp terrainMatrix s)) in
  vec_x p = vec_x (Player.position (Player.body s))
  /\ vec_z p = vec_z (Player.position (Player.body s))
  /\ Player.getTerrainHeightAt terrainMatrix (vec_x p) (vec_z p) + 0.8
     <= vec_y p.
Proof.
  cbv zeta. unfold Player.safetyClamp. cbv zeta.
  destruct (Qltb _ _) eqn:E.
  - simpl. repeat split; try reflexivity. lra.
  - apply Qltb_ge in E. repeat split; try reflexivity. exact E.
Qed.

Lemma checkWater_position (terrainMatrix : Z -> Z -> Q) (s : Player.State) :
  Player.position (Player.body (Player.checkWater terrainMatrix s))
  = Player.position (Player.body s)
  \/ Player.position (Player.body (Player.checkWater terrainMatrix s))
     = mkVector3 0 (Player.getTerrainHeightAt terrainMatrix 0 0 + 2) 0.
Proof.
  unfold Player.checkWater. cbv zeta.
  destruct (Qltb _ (-0.5)); cbn [Player.body Player.position];
    destruct (Qltb _ (-20)); auto.
Qed.

(** After every [update] the body is at least 0.8 above the terrain under
    it: the clamp lifts a sunken body, the movement code does not move it,
    and a respawn puts it 2 above the terrain at the origin. *)
Theorem update_above_terrain
    (terrainMatrix : Z -> Z -> Q) (Math_sin Math_cos : Q -> Q)
    (deltaTime : Q) (keys : Player.Keys) (grounded : bool)
    (s : Player.State) :
  let p := Player.position
             (Player.body
                (fst (Player.update terrainMatrix Math_sin Math_cos deltaTime
                        keys grounded s))) in
  Player.getTerrainHeightAt terrainMatrix (vec_x p) (vec_z p) + 0.8
  <= vec_y p.
Proof.
  cbv zeta. unfold Player.update. cbv zeta.
  match goal with
  | |- context [Player.handleMovement ?a ?b ?c ?d ?e ?f] =>
      pose proof (handleMovement_position a b c d e f) as Hp;
      destruct (Player.handleMovement a b c d e f) as [s3 r]
  end.
  cbn [fst Player.body] in *.
  destruct (safetyClamp_above terrainMatrix s) as (_ & _ & Hc).
  cbv zeta in Hc.
  destruct (checkWater_position terrainMatrix s3) as [E|E]; rewrite E.
  - rewrite Hp. exact Hc.
  - cbn [vec_x vec_y vec_z]. lra.
Qed.

(** Outside the terrain square [getTerrainHeightAt] answers -100; inside
    it always answers one of the 128 x 128 height samples, so the fallback
    value 0 of the source is never returned there. *)
Theorem getTerrainHeightAt_cases (terrainMatrix : Z -> Z -> Q) (x z : Q) :
  ((x < -50 \/ 50 < x \/ z < -50 \/ 50 < z) ->
   Player.getTerrainHeightAt terrainMatrix x z = -100)
  /\ (-50 <= x -> x <= 50 -> -50 <= z -> z <= 50 ->
      exists i j, (0 <= i < 128)%Z /\ (0 <= j < 128)%Z
                  /\ Player.getTerrainHeightAt terrainMatrix x z
                     = terrainMatrix i j).
Proof.
  assert (forall v, -50 <= v -> v <= 50 ->
            (0 <= Qfloor ((v + Player.terrainSize / 2)
                          / (Player.terrainSize
                             / (inject_Z Player.terrainResolution - 1)))
             < 128)%Z) as Hidx.
  { intros v H1 H2.
    set (e := Player.terrainSize / (inject_Z Player.terrainResolution - 1)).
    assert (e == 100 # 127) as He by reflexivity.
    assert (0 <= (v + Player.terrainSize / 2) / e) as Hlo.
    { apply Qle_shift_div_l; [rewrite He; reflexivity|].
      rewrite Qmult_0_l. clearbody e.
      assert (Player.terrainSize / 2 == 50) as -> by reflexivity. lra. }
    assert ((v + Player.terrainSize / 2) / e <= 127) as Hhi.
    { apply Qle_shift_div_r; [rewrite He; reflexivity|].
      rewrite He. clearbody e.
      assert (Player.terrainSize / 2 == 50) as -> by reflexivity.
      assert (127 * (100 # 127) == 100) as -> by reflexivity. lra. }
    apply Qfloor_resp_le in Hlo, Hhi.
    change (Qfloor 0) with 0%Z in Hlo. change (Qfloor 127) with 127%Z in Hhi.
    lia. }
  unfold Player.getTerrainHeightAt. cbv zeta. split.
  - intros H.
    assert (Qltb x (- (Player.terrainSize / 2))
            || Qltb (Player.terrainSize / 2) x
            || Qltb z (- (Player.terrainSize / 2))
            || Qltb (Player.terrainSize / 2) z = true) as ->; [|reflexivity].
    assert (Player.terrainSize / 2 == 50) as Hh by reflexivity.
    rewrite !orb_true_iff, !Qltb_lt, !Hh.
    destruct H as [H|[H|[H|H]]]; [left; left; left|left; left; right
                                  |left; right|right]; lra.
  - intros Hx1 Hx2 Hz1 Hz2.
    assert (Qltb x (- (Player.terrainSize / 2))
            || Qltb (Player.terrainSize / 2) x
            || Qltb z (- (Player.terrainSize / 2))
            || Qltb (Player.terrainSize / 2) z = false) as ->.
    { assert (Player.terrainSize / 2 == 50) as Hh by reflexivity.
      rewrite !orb_false_iff, !Qltb_ge, !Hh.
      repeat split; lra. }
    pose proof (Hidx x Hx1 Hx2) as Hi. pose proof (Hidx z Hz1 Hz2) as Hj.
    eexists _, _. split; [exact Hi|]. split; [exact Hj|].
    assert (forall k, (0 <= k < 128)%Z ->
              (0 <=? k)%Z && (k <? Player.terrainResolution)%Z = true) as Hb.
    { intros k Hk. apply andb_true_intro. split.
      - apply Z.leb_le. lia.
      - apply Z.ltb_lt. unfold Player.terrainResolution. lia. }
    rewrite (Hb _ Hi). cbn [andb]. rewrite (Hb _ Hj). reflexivity.
Qed.

Lemma getTerrainHeightAt_cases_witness :
  Player.getTerrainHeightAt (fun i j => inject_Z (i + j)) 60 0 = -100.
Proof.
  apply (proj1 (getTerrainHeightAt_cases (fun i j => inject_Z (i + j)) 60 0)).
  right. left. reflexivity.
Defined.

Lemma unit_speed (sn cs sp sp' mf : Q) :
  sn * sn + cs * cs == 1 -> mf * mf == 1 -> sp == sp' ->
  (- sn * sp * mf) * (- sn * sp * mf) + (- cs * sp * mf) * (- cs * sp * mf)
  == sp' * sp'.
Proof.
  intros H1 H2 H3.
  transitivity (sp * sp * (mf * mf) * (sn * sn + cs * cs)); [ring|].
  rewrite H1, H2, H3. ring.
Qed.

(** With a sine and cosine on the unit circle, a player who presses
    forward or backward moves at exactly the chosen speed, whatever the
    velocity was: 6 walking, 12 running, half of that while swimming.
    With neither key held the horizontal velocity is scaled by 0.5, or by
    0.8 while swimming. *)
Theorem handleMovement_speed (Math_sin Math_cos : Q -> Q) (deltaTime : Q)
    (keys : Player.Keys) (grounded : bool) (s : Player.State) :
  (forall a, Math_sin a * Math_sin a + Math_cos a * Math_cos a == 1) ->
  let v := Player.velocity (Player.body s) in
  let v' := Player.velocity
              (Player.body
                 (fst (Player.handleMovement Math_sin Math_cos deltaTime keys
                         grounded s))) in
  let speed := (if Player.run keys then 12 else 6)
               * (if Player.isSwimming s then 0.5 else 1) in
  let friction := if Player.isSwimming s then 0.8 else 0.5 in
  if Player.backward keys || Player.forward keys
  then vec_x v' * vec_x v' + vec_z v' * vec_z v' == speed * speed
  else vec_x v' = vec_x v * friction /\ vec_z v' = vec_z v * friction.
Proof.
  intros Hunit. cbv zeta. unfold Player.handleMovement. cbv zeta.
  set (rot := if Player.right keys then _ else _).
  pose proof (Hunit rot) as Hr. clearbody rot.
  destruct (Player.backward keys), (Player.forward keys); cbn [orb];
    change (Qeq_bool (-1) 0) with false;
    change (Qeq_bool 1 0) with false;
    change (Qeq_bool 0 0) with true; cbn [negb];
    destruct (Player.jump keys); destruct (Player.canJump s);
    destruct (Player.isSwimming s
              && Qltb (-1.5) (vec_y (Player.position (Player.body s))));
    destruct ((if grounded then 0 else Player.jumpCount s) <? 3)%nat;
    destruct (Player.run keys); destruct (Player.isSwimming s);
    cbn [fst Player.body Player.velocity vec_x vec_z];
    try (split; reflexivity);
    (apply unit_speed; [exact Hr|reflexivity|ring]).
Qed.

Lemma handleMovement_speed_witness :
  let s := Player.mkState
             (Player.mkBody (mkVector3 0 1 0) (mkVector3 3 0 4) 0.9
                            (mkVector3 0 0 0))
             (mkVector3 0 1.1 0) 0 0 true false in
  let keys := Player.mkKeys true false false false false true in
  let v' := Player.velocity
              (Player.body
                 (fst (Player.handleMovement (fun _ => 0) (fun _ => 1)
                         (1 / 60) keys true s))) in
  vec_x v' * vec_x v' + vec_z v' * vec_z v' == (12 * 1) * (12 * 1).
Proof.
  intros s keys.
  apply (handleMovement_speed (fun _ => 0) (fun _ => 1) (1 / 60) keys true s).
  intros a. reflexivity.
Defined.

Lemma checkWater_flags (terrainMatrix : Z -> Z -> Q) (s : Player.State) :
  Player.isSwimming (Player.checkWater terrainMatrix s)
  = Qltb (vec_y (Player.position (Player.body s))) (-0.5)
  /\ Player.canJump (Player.checkWater terrainMatrix s) = Player.canJump s
  /\ vec_y (Player.force (Player.body s))
     <= vec_y (Player.force (Player.body (Player.checkWater terrainMatrix s))).
Proof.
  unfold Player.checkWater. cbv zeta.
  destruct (Qltb _ (-0.5)) eqn:E; cbn [Player.body Player.position];
    destruct (Qltb _ (-20)); cbn; repeat split; try lra.
  all: destruct (Qltb 0 _) eqn:E0; cbn; try lra.
  all: apply Qltb_lt in E0; lra.
Qed.

(** The swim flag after [checkWater] is decided by the height before the
    respawn test, and buoyancy never pushes down.  So a body that fell
    below -20 is put at the spawn point still flagged as swimming, and,
    when the terrain sample at the origin is above -3.5, the next jump
    press on that body is answered with the swim launch, not with a
    regular jump. *)
Theorem respawn_keeps_swim_flag
    (terrainMatrix : Z -> Z -> Q) (Math_sin Math_cos : Q -> Q)
    (s : Player.State) :
  (Player.isSwimming (Player.checkWater terrainMatrix s)
   = Qltb (vec_y (Player.position (Player.body s))) (-0.5)
   /\ vec_y (Player.force (Player.body s))
      <= vec_y (Player.force
                  (Player.body (Player.checkWater terrainMatrix s))))
  /\ (forall dt1 dt2 keys1 keys2 grounded1 grounded2,
        vec_y (Player.position
                 (Player.body (Player.safetyClamp terrainMatrix s))) < -20 ->
        -3.5 < terrainMatrix 63%Z 63%Z ->
        Player.jump keys1 = false ->
        Player.jump keys2 = true ->
        snd (Player.update terrainMatrix Math_sin Math_cos dt2 keys2 grounded2
               (fst (Player.update terrainMatrix Math_sin Math_cos dt1 keys1
                       grounded1 s)))
        = Player.SwimJump).
Proof.
  split.
  { destruct (checkWater_flags terrainMatrix s) as (H1 & _ & H3). auto. }
  intros dt1 dt2 keys1 keys2 g1 g2 Hy Ht Hk1 Hk2.
  (* the first frame ends at the spawn point, swimming, ready to jump *)
  set (s1 := fst (Player.update terrainMatrix Math_sin Math_cos dt1 keys1
                    g1 s)).
  assert (Player.position (Player.body s1)
          = mkVector3 0 (Player.getTerrainHeightAt terrainMatrix 0 0 + 2) 0
          /\ Player.isSwimming s1 = true /\ Player.canJump s1 = true)
    as (Hp1 & Hs1 & Hc1).
  { subst s1. unfold Player.update. cbv zeta.
    match goal with
    | |- context [Player.handleMovement ?a ?b ?c ?d ?e ?f] =>
        pose proof (handleMovement_position a b c d e f) as Hp;
        pose proof (handleMovement_jump a b c d e f) as (_ & Hc & _);
        destruct (Player.handleMovement a b c d e f) as [s3 r]
    end.
    cbn [fst snd Player.body] in *.
    rewrite <- Hp in Hy.
    destruct (checkWater_respawn terrainMatrix s3 Hy) as [Hpos _].
    destruct (checkWater_flags terrainMatrix s3) as (Hsw & Hcj & _).
    split; [exact Hpos|]. split.
    - rewrite Hsw. apply Qltb_lt. lra.
    - rewrite Hcj, Hc, Hk1. reflexivity. }
  clearbody s1.
  unfold Player.update. cbv zeta.
  rewrite (safetyClamp_spawn terrainMatrix s1 Hp1).
  match goal with
  | |- context [Player.handleMovement ?a ?b ?c ?d ?e ?f] =>
      pose proof (handleMovement_jump a b c d e f) as (Hr & _);
      destruct (Player.handleMovement a b c d e f) as [s3 r]
  end.
  cbn [fst snd Player.body Player.canJump Player.isSwimming Player.jumpCount]
    in *.
  rewrite Hr, Hk2, Hc1, Hs1, Hp1. cbn [andb vec_y].
  rewrite getTerrainHeightAt_origin.
  assert (Qltb (-1.5) (terrainMatrix 63%Z 63%Z + 2) = true) as ->
    by (apply Qltb_lt; lra).
  reflexivity.
Qed.

Lemma respawn_keeps_swim_flag_witness :
  let s := Player.mkState
             (Player.mkBody (mkVector3 60 (-30) 0) (mkVector3 0 (-5) 0) 0.9
                            (mkVector3 0 0 0))
             (mkVector3 60 (-30) 0) 0 0 true false in
  let idle := Player.mkKeys false false false false false false in
  let press := Player.mkKeys false false false false true false in
  snd (Player.update (fun _ _ => 0) (fun _ => 0) (fun _ => 1) (1 / 60)
         press true
         (fst (Player.update (fun _ _ => 0) (fun _ => 0) (fun _ => 1)
                 (1 / 60) idle false s)))
  = Player.SwimJump.
Proof.
  intros s idle press.
  apply (proj2 (respawn_keeps_swim_flag (fun _ _ => 0) (fun _ => 0)
                  (fun _ => 1) s));
    try reflexivity.
Defined.

(** A flag of the keyboard state is shared by the keys that drive it:
    releasing one key clears the flag even while another key for the same
    flag is still held, and keys that drive different flags do not
    interfere. *)
Theorem input_keys_share_flags (c1 c2 : Input.KeyCode) (keys : Player.Keys) :
  (Input.sameFlag c1 c2 = true ->
   Input.onKeyUp c1 (Input.onKeyDown c2 (Input.onKeyDown c1 keys))
   = Input.onKeyUp c1 keys)
  /\ (Input.sameFlag c1 c2 = false ->
      Input.onKeyDown c1 (Input.onKeyUp c2 keys)
      = Input.onKeyUp c2 (Input.onKeyDown c1 keys)).
Proof.
  split; intros H; destruct c1, c2; try discriminate H; reflexivity.
Qed.

Lemma input_keys_share_flags_witness :
  let keys := Player.mkKeys false false false false false false in
  Player.forward
    (Input.onKeyUp Input.ArrowUp
       (Input.onKeyDown Input.KeyW (Input.onKeyDown Input.ArrowUp keys)))
  = false.
Proof.
  intros keys.
  rewrite (proj1 (input_keys_share_flags Input.ArrowUp Input.KeyW keys)
             eq_refl).
  reflexivity.
Defined.

(* ===================================================================== *)
(** * The earlier third-person player *)




